(** * SentinelTrade: resilient cache, price-alert matcher, webhook dispatcher

    A shallow embedding of [redis.service.ts], [crypto.service.ts]
    (price monitoring part) and [webhook.service.ts].

    The three services are module-level singletons sharing mutable state;
    here that state is one record, [World], threaded through a small
    state-and-exception monad [M].  Asynchronous calls are sequenced in
    program order ([await] at every call site).  The Redis server, the web
    server and the clock are the environment: [World] carries the key space
    of the server, which commands it rejects, which HTTP answers it gives,
    and the time.  Logging is left out. *)

From Stdlib Require Import ZArith String Ascii List Bool Lia PrimFloat.
From stdpp Require Import base option list strings gmap pretty.
From Equations Require Import Equations.
Import ListNotations.

Set Warnings "-inexact-float".
Set Default Proof Using "Type".

Open Scope string_scope.
Open Scope Z_scope.

(** ** JavaScript values handled by the services *)

(** [interface PriceData] of crypto.service.ts.  JavaScript numbers are
    IEEE-754 doubles: [float]. *)
Module PriceData.
Record t := mk
  { price : float; change24h : float; volume24h : float; marketCap : float }.
End PriceData.

(** The object literal [{ symbol, price, isAbove }] written by
    [setPriceAlert]. *)
Module AlertData.
Record t := mk { symbol : string; price : float; isAbove : bool }.
End AlertData.

(** [Record<string, number>]. *)
Definition Portfolio := list (string * float).

(** The plain objects that reach the cache. *)
Inductive JsObject :=
| OAlert (a : AlertData.t)
| OPortfolio (p : Portfolio)
| OPrice (d : PriceData.t).

(** JavaScript strings that reach the cache: literal text, or the text
    [JSON.stringify(o)] of one of the objects above, kept symbolic (the
    digits of a double are not computed). [Text] stands for text that is not
    JSON (URLs, opaque payloads). *)
Inductive JsString :=
| Text (s : string)
| Json (o : JsObject).

(** The [any] values held by [inMemoryStorage : Map<string, any>]. *)
Inductive JsValue :=
| VObj (o : JsObject)
| VStr (s : JsString).

Inductive JsError :=
| TypeError (msg : string)
| SyntaxError
| RedisError
| HttpError (status : option Z).

(** Truthiness: objects are truthy, a string is truthy unless empty. *)
Definition truthyStr (s : JsString) : bool :=
  match s with
  | Text "" => false
  | _ => true
  end.

Definition truthy (v : JsValue) : bool :=
  match v with
  | VObj _ => true
  | VStr s => truthyStr s
  end.

(** [userId: number] in the TypeScript signatures.  Types are erased at run
    time and [handlePriceUpdate] passes a symbol (a string) in this position,
    so the parameter is modelled with both shapes.  Numeric ids are integers
    (Telegram user ids), printed in decimal by a template literal. *)
Inductive UserId :=
| IdNum (n : Z)
| IdStr (s : string).

Definition idText (u : UserId) : string :=
  match u with
  | IdNum n => pretty n
  | IdStr s => s
  end.

(** ** Strings *)

(** [s.startsWith(p)] *)
Definition startsWith (s p : string) : bool := String.prefix p s.

(** [s.split(sep)] for a one-character separator. *)
Fixpoint split (sep : ascii) (s : string) : list string :=
  match s with
  | EmptyString => [EmptyString]
  | String c s' =>
      if Ascii.eqb c sep then EmptyString :: split sep s'
      else match split sep s' with
           | h :: t => String c h :: t
           | [] => [String c EmptyString]
           end
  end.

(** [key.split(':')[2]] used as a property name: an index out of range
    yields [undefined], which names the property ["undefined"]. *)
Definition symbolOfKey (key : string) : string :=
  match nth_error (split ":" key) 2 with
  | Some s => s
  | None => "undefined"
  end.

(** Redis glob patterns as used by [KEYS]: [*], [?] and backslash escapes
    (bracket classes never occur in the patterns built by [getKey] from
    numeric ids and are not modelled). *)
Fixpoint glob (p s : list ascii) {struct p} : bool :=
  match p with
  | [] => match s with [] => true | _ => false end
  | c :: p' =>
      if Ascii.eqb c "*" then
        (fix star (s : list ascii) : bool :=
           glob p' s || match s with [] => false | _ :: s' => star s' end) s
      else if Ascii.eqb c "?" then
        match s with [] => false | _ :: s' => glob p' s' end
      else if Ascii.eqb c "\" then
        match p', s with
        | e :: p'', d :: s' => Ascii.eqb e d && glob p'' s'
        | [], d :: s' => Ascii.eqb c d && match s' with [] => true | _ => false end
        | _, [] => false
        end
      else
        match s with [] => false | d :: s' => Ascii.eqb c d && glob p' s' end
  end.

Definition globMatch (pattern s : string) : bool :=
  glob (list_ascii_of_string pattern) (list_ascii_of_string s).

(** ** [Map<string, any>] and plain objects used as records

    A JavaScript [Map] iterates in insertion order; [set] on an existing
    key keeps its position. *)
Section JsMap.
Context {V : Type}.

Fixpoint Map_get (k : string) (m : list (string * V)) : option V :=
  match m with
  | [] => None
  | (k', v) :: m' => if String.eqb k k' then Some v else Map_get k m'
  end.

Fixpoint Map_set (k : string) (v : V) (m : list (string * V)) : list (string * V) :=
  match m with
  | [] => [(k, v)]
  | (k', v') :: m' =>
      if String.eqb k k' then (k, v) :: m' else (k', v') :: Map_set k v m'
  end.

Definition Map_delete (k : string) (m : list (string * V)) : list (string * V) :=
  List.filter (fun e => negb (String.eqb k (fst e))) m.

(** [Object.fromEntries(es)], and equally a loop of [o[k] = v]. *)
Definition Object_fromEntries (es : list (string * V)) : list (string * V) :=
  fold_left (fun o e => Map_set (fst e) (snd e) o) es [].
End JsMap.

Definition Record_ := list (string * JsValue).

(** ** The shared state of the three singleton services *)

(** The [ioredis] client: the server's key space (each value with its
    absolute expiry time in milliseconds, if any), and a schedule telling
    which of the commands issued through the client are rejected. *)
Record RedisClient := mkRedis
  { store : gmap string (JsString * option Z);
    fails : nat -> bool;
    issued : nat }.

Inductive HttpOutcome :=
| Response (status : Z)
| NetworkError.

Inductive Event :=
| EvPost (url : string) (time : Z)
| EvSleep (ms : Z)
| EvCallback (cb : nat) (symbol : string) (price : float).

Record World := mkWorld
  { (* RedisService *)
    redis : option RedisClient;
    inMemoryStorage : list (string * JsValue);
    isRedisAvailable : bool;
    (* CryptoService *)
    priceUpdateCallbacks : list (string * list nat);
    monitoredSymbols : list string;
    (* environment: clock (ms), outcome of the n-th HTTP request, requests
       made so far, and the observable events in chronological order *)
    now : Z;
    http : nat -> HttpOutcome;
    requests : nat;
    events : list Event }.

Definition with_redis (r : option RedisClient) (w : World) : World :=
  mkWorld r (inMemoryStorage w) (isRedisAvailable w) (priceUpdateCallbacks w)
    (monitoredSymbols w) (now w) (http w) (requests w) (events w).

Definition with_memory (m : list (string * JsValue)) (w : World) : World :=
  mkWorld (redis w) m (isRedisAvailable w) (priceUpdateCallbacks w)
    (monitoredSymbols w) (now w) (http w) (requests w) (events w).

Definition with_available (b : bool) (w : World) : World :=
  mkWorld (redis w) (inMemoryStorage w) b (priceUpdateCallbacks w)
    (monitoredSymbols w) (now w) (http w) (requests w) (events w).

Definition with_callbacks (c : list (string * list nat)) (w : World) : World :=
  mkWorld (redis w) (inMemoryStorage w) (isRedisAvailable w) c
    (monitoredSymbols w) (now w) (http w) (requests w) (events w).

Definition with_monitored (s : list string) (w : World) : World :=
  mkWorld (redis w) (inMemoryStorage w) (isRedisAvailable w)
    (priceUpdateCallbacks w) s (now w) (http w) (requests w) (events w).

Definition with_now (t : Z) (w : World) : World :=
  mkWorld (redis w) (inMemoryStorage w) (isRedisAvailable w)
    (priceUpdateCallbacks w) (monitoredSymbols w) t (http w) (requests w)
    (events w).

Definition with_requests (n : nat) (w : World) : World :=
  mkWorld (redis w) (inMemoryStorage w) (isRedisAvailable w)
    (priceUpdateCallbacks w) (monitoredSymbols w) (now w) (http w) n
    (events w).

Definition with_events (e : list Event) (w : World) : World :=
  mkWorld (redis w) (inMemoryStorage w) (isRedisAvailable w)
    (priceUpdateCallbacks w) (monitoredSymbols w) (now w) (http w)
    (requests w) e.

(** ** State and exceptions *)

Inductive Result (A : Type) :=
| Ok (a : A)
| Throw (e : JsError).
Arguments Ok {A} a.
Arguments Throw {A} e.

Definition M (A : Type) : Type := World -> Result A * World.

Definition ret {A} (a : A) : M A := fun w => (Ok a, w).

Definition throw {A} (e : JsError) : M A := fun w => (Throw e, w).

Definition bind {A B} (m : M A) (k : A -> M B) : M B :=
  fun w =>
    match m w with
    | (Ok a, w') => k a w'
    | (Throw e, w') => (Throw e, w')
    end.

(** [try { body } catch (error) { handler }]: the effects of [body] up to
    the exception stay. *)
Definition tryCatch {A} (body : M A) (handler : JsError -> M A) : M A :=
  fun w =>
    match body w with
    | (Ok a, w') => (Ok a, w')
    | (Throw e, w') => handler e w'
    end.

Definition gets {A} (f : World -> A) : M A := fun w => (Ok (f w), w).

Definition modify (f : World -> World) : M unit := fun w => (Ok tt, f w).

Notation "x <- c1 ;; c2" := (bind c1 (fun x => c2))
  (at level 100, c1 at next level, right associativity).
Notation "c1 ;; c2" := (bind c1 (fun _ => c2))
  (at level 100, right associativity).

Fixpoint forEach {A} (l : list A) (body : A -> M unit) : M unit :=
  match l with
  | [] => ret tt
  | x :: l' => body x ;; forEach l' body
  end.

Definition emit (e : Event) : M unit :=
  modify (fun w => with_events (events w ++ [e]) w).

(** ** Redis commands

    Every command issued through the client consumes one entry of the
    failure schedule; a rejected command throws and leaves the key space
    as it was. *)
Definition command {A}
    (run : Z -> gmap string (JsString * option Z) ->
           Result A * gmap string (JsString * option Z)) : M A :=
  fun w =>
    match redis w with
    | None => (Throw (TypeError "Cannot read properties of null"), w)
    | Some c =>
        if fails c (issued c) then
          (Throw RedisError,
           with_redis (Some (mkRedis (store c) (fails c) (S (issued c)))) w)
        else
          let '(r, s) := run (now w) (store c) in
          (r, with_redis (Some (mkRedis s (fails c) (S (issued c)))) w)
    end.

Definition live (t : Z) (e : JsString * option Z) : bool :=
  match snd e with
  | None => true
  | Some deadline => t <? deadline
  end.

(** [redis.get(key)]: [null] for an absent or expired key. *)
Definition redis_get (key : string) : M (option JsString) :=
  command (fun t s =>
    (Ok (match s !! key with
         | Some e => if live t e then Some (fst e) else None
         | None => None
         end), s)).

(** [redis.set(key, value)] and [redis.set(key, value, 'EX', seconds)]; the
    server refuses an expiry that is not positive. *)
Definition redis_set (key : string) (value : JsString) (ex : option Z) : M unit :=
  command (fun t s =>
    match ex with
    | None => (Ok tt, <[key := (value, None)]> s)
    | Some secs =>
        if 0 <? secs then (Ok tt, <[key := (value, Some (t + 1000 * secs))]> s)
        else (Throw RedisError, s)
    end).

(** [redis.del(...keys)] *)
Definition redis_del (keys : list string) : M unit :=
  command (fun t s => (Ok tt, fold_right (fun k m => delete k m) s keys)).

(** [redis.keys(pattern)] *)
Definition redis_keys (pattern : string) : M (list string) :=
  command (fun t s =>
    (Ok (List.filter (globMatch pattern)
           (map fst (List.filter (fun kv => live t (snd kv)) (map_to_list s)))), s)).

(** [redis.quit()] *)
Definition redis_quit : M unit := command (fun t s => (Ok tt, s)).

(** [JSON.parse] on the two kinds of text of the model.  The text
    [JSON.stringify(o)] of a serialized object gives the object back; this
    is exact for numbers that are finite and not the negative zero (a
    number JSON cannot carry comes back as [null], and [-0] as [0]), which
    is what the statements that read a parsed number assume.  [Text] is
    text that is not JSON: a [SyntaxError]. *)
Definition JSON_parse (s : JsString) : M JsObject :=
  match s with
  | Json o => ret o
  | Text _ => throw SyntaxError
  end.

(** ** [class RedisService] (redis.service.ts) *)

(** Connection events registered in [initializeRedis]. *)
Definition onError : M unit := modify (with_available false).
Definition onConnect : M unit := modify (with_available true).

(** [this.isRedisAvailable && this.redis] *)
Definition redisInUse (w : World) : bool :=
  isRedisAvailable w && match redis w with Some _ => true | None => false end.

Definition useRedis : M bool := gets redisInUse.

(** Time passing between two calls (environment). *)
Definition elapse (ms : Z) : M unit :=
  modify (fun w => with_now (now w + ms) w).

Definition memSet (key : string) (value : JsValue) : M unit :=
  modify (fun w => with_memory (Map_set key value (inMemoryStorage w)) w).

Definition memGet (key : string) : M (option JsValue) :=
  gets (fun w => Map_get key (inMemoryStorage w)).

Definition memDelete (key : string) : M unit :=
  modify (fun w => with_memory (Map_delete key (inMemoryStorage w)) w).

(** [`${type}:${userId}${symbol ? ':' + symbol : ''}`] *)
Definition getKey (type : string) (userId : UserId) (symbol : option string) : string :=
  type ++ ":" ++ idText userId ++
  match symbol with
  | Some s => if String.eqb s "" then "" else ":" ++ s
  | None => ""
  end.

(** [`alert:${userId}`], the prefix tested on in-memory keys. *)
Definition alertPrefix (userId : UserId) : string := "alert:" ++ idText userId.

Definition setPriceAlert (userId : UserId) (symbol : string) (price : float)
    (isAbove : bool) : M unit :=
  let key := getKey "alert" userId (Some symbol) in
  let data := OAlert (AlertData.mk symbol price isAbove) in
  tryCatch
    (b <- useRedis ;;
     if b then redis_set key (Json data) None
     else memSet key (VObj data))
    (fun _ => memSet key (VObj data)).

(** The loop over [keys] in the Redis branch of [getPriceAlerts]. *)
Fixpoint collectAlerts (keys : list string) (alerts : Record_) : M Record_ :=
  match keys with
  | [] => ret alerts
  | key :: keys' =>
      data <- redis_get key ;;
      match data with
      | Some d =>
          if truthyStr d then
            o <- JSON_parse d ;;
            collectAlerts keys' (Map_set (symbolOfKey key) (VObj o) alerts)
          else collectAlerts keys' alerts
      | None => collectAlerts keys' alerts
      end
  end.

(** The loop over [inMemoryStorage.entries()] in the other branch. *)
Definition scanMemory (userId : UserId) (m : list (string * JsValue)) : Record_ :=
  fold_left
    (fun alerts e =>
       if startsWith (fst e) (alertPrefix userId)
       then Map_set (symbolOfKey (fst e)) (snd e) alerts
       else alerts)
    m [].

Definition getPriceAlerts (userId : UserId) : M Record_ :=
  let pattern := getKey "alert" userId (Some "*") in
  tryCatch
    (b <- useRedis ;;
     if b then
       keys <- redis_keys pattern ;;
       collectAlerts keys []
     else
       m <- gets inMemoryStorage ;;
       ret (scanMemory userId m))
    (fun _ =>
       m <- gets inMemoryStorage ;;
       ret (Object_fromEntries
              (map (fun e => (symbolOfKey (fst e), snd e))
                 (List.filter (fun e => startsWith (fst e) (alertPrefix userId)) m)))).

Definition removePriceAlert (userId : UserId) (symbol : string) (isAbove : bool)
    : M unit :=
  let key := getKey "alert" userId (Some symbol) in
  b <- useRedis ;;
  if b then redis_del [key] else memDelete key.

Definition setCacheWithExpiry (key : string) (value : JsString)
    (expirySeconds : Z) : M unit :=
  b <- useRedis ;;
  if b then redis_set key value (Some expirySeconds)
  else memSet key (VStr value).

(** [x || null] *)
Definition orNull (x : option JsValue) : option JsValue :=
  match x with
  | Some v => if truthy v then Some v else None
  | None => None
  end.

Definition getCache (key : string) : M (option JsValue) :=
  b <- useRedis ;;
  if b then (r <- redis_get key ;; ret (option_map VStr r))
  else (v <- memGet key ;; ret (orNull v)).

Definition deleteCache (key : string) : M unit :=
  b <- useRedis ;;
  if b then redis_del [key] else memDelete key.

Definition setUserPortfolio (userId : UserId) (portfolio : Portfolio) : M unit :=
  let key := getKey "portfolio" userId None in
  tryCatch
    (b <- useRedis ;;
     if b then redis_set key (Json (OPortfolio portfolio)) None
     else memSet key (VObj (OPortfolio portfolio)))
    (fun _ => memSet key (VObj (OPortfolio portfolio))).

(** [x || {}] *)
Definition orEmpty (x : option JsValue) : JsValue :=
  match orNull x with
  | Some v => v
  | None => VObj (OPortfolio [])
  end.

Definition getUserPortfolio (userId : UserId) : M JsValue :=
  let key := getKey "portfolio" userId None in
  tryCatch
    (b <- useRedis ;;
     if b then
       data <- redis_get key ;;
       match data with
       | Some d => if truthyStr d then (o <- JSON_parse d ;; ret (VObj o))
                   else ret (VObj (OPortfolio []))
       | None => ret (VObj (OPortfolio []))
       end
     else (v <- memGet key ;; ret (orEmpty v)))
    (fun _ => v <- memGet key ;; ret (orEmpty v)).

Definition setWebhook (userId : UserId) (url : string) : M unit :=
  let key := getKey "webhook" userId None in
  tryCatch
    (b <- useRedis ;;
     if b then redis_set key (Text url) None
     else memSet key (VStr (Text url)))
    (fun _ => memSet key (VStr (Text url))).

Definition getWebhook (userId : UserId) : M (option JsValue) :=
  let key := getKey "webhook" userId None in
  tryCatch
    (b <- useRedis ;;
     if b then (r <- redis_get key ;; ret (option_map VStr r))
     else (v <- memGet key ;; ret (orNull v)))
    (fun _ => v <- memGet key ;; ret (orNull v)).

Definition removeWebhook (userId : UserId) : M unit :=
  let key := getKey "webhook" userId None in
  b <- useRedis ;;
  if b then redis_del [key] else memDelete key.

Definition disconnect : M unit :=
  b <- useRedis ;;
  if b then redis_quit else ret tt.

(** [for (const key of this.inMemoryStorage.keys()) if (key.startsWith(..))
    this.inMemoryStorage.delete(key)].  Deleting the entry under the cursor
    does not disturb a [Map] iteration: every key present at the start is
    visited once. *)
Definition clearMemoryAlerts (userId : UserId) : M unit :=
  keys <- gets (fun w => map fst (inMemoryStorage w)) ;;
  forEach keys (fun key =>
    if startsWith key (alertPrefix userId) then memDelete key else ret tt).

Definition clearUserAlerts (userId : UserId) : M unit :=
  let pattern := getKey "alert" userId (Some "*") in
  tryCatch
    (b <- useRedis ;;
     (if b then
        keys <- redis_keys pattern ;;
        if (0 <? length keys)%nat then redis_del keys else ret tt
      else ret tt) ;;
     clearMemoryAlerts userId)
    (fun _ => clearMemoryAlerts userId).

(** ** [class CryptoService] (crypto.service.ts): price monitoring *)

Inductive Condition := above | below.

(** [interface PriceAlert] *)
Module PriceAlert.
Record t := mk { condition : Condition; price : float; userId : UserId }.
End PriceAlert.

(** What the loop body of [handlePriceUpdate] reads from each element it
    iterates over: [alert.isAbove], [alert.targetPrice], [alert.userId]
    (the "legacy alert format" of its comment).  Nothing in the services
    builds a value of this shape: [setPriceAlert] stores
    [{ symbol, price, isAbove }]. *)
Module LegacyAlert.
Record t := mk { isAbove : bool; targetPrice : float; userId : UserId }.
End LegacyAlert.

(** [for (const alert of alerts)]: [alerts] is the plain object returned by
    [getPriceAlerts], which has no iterator, so entering the loop throws. *)
Definition iterate (alerts : Record_) : M (list LegacyAlert.t) :=
  throw (TypeError "alerts is not iterable").

Definition toTyped (alert : LegacyAlert.t) : PriceAlert.t :=
  PriceAlert.mk (if LegacyAlert.isAbove alert then above else below)
    (LegacyAlert.targetPrice alert) (LegacyAlert.userId alert).

(** The trigger condition; [x >= y] on doubles is [PrimFloat.leb y x]. *)
Definition conditionMet (typedAlert : PriceAlert.t) (data : PriceData.t) : bool :=
  match PriceAlert.condition typedAlert with
  | above => PrimFloat.leb (PriceAlert.price typedAlert) (PriceData.price data)
  | below => PrimFloat.leb (PriceData.price data) (PriceAlert.price typedAlert)
  end.

(** Callbacks are identified by a number; calling one is recorded as an
    event. *)
Definition invokeCallbacks (symbol : string) (price : float) : M unit :=
  callbacks <- gets (fun w =>
    match Map_get symbol (priceUpdateCallbacks w) with
    | Some l => l
    | None => []
    end) ;;
  forEach callbacks (fun cb => emit (EvCallback cb symbol price)).

Definition alertBody (symbol : string) (data : PriceData.t)
    (alert : LegacyAlert.t) : M unit :=
  let typedAlert := toTyped alert in
  if conditionMet typedAlert data then
    invokeCallbacks symbol (PriceData.price data) ;;
    removePriceAlert (PriceAlert.userId typedAlert) symbol
      (match PriceAlert.condition typedAlert with above => true | below => false end)
  else ret tt.

Definition handlePriceUpdate (symbol : string) (data : PriceData.t) : M unit :=
  tryCatch
    (setCacheWithExpiry ("price:" ++ symbol) (Json (OPrice data)) 300 ;;
     alerts <- getPriceAlerts (IdStr symbol) ;;
     elements <- iterate alerts ;;
     forEach elements (alertBody symbol data))
    (fun _ => ret tt).

(** One firing of the interval timer of [startPriceMonitoring], given the
    prices returned by the provider for the monitored symbols. *)
Definition pollTick (prices : list (string * PriceData.t)) : M unit :=
  tryCatch
    (forEach prices (fun e => handlePriceUpdate (fst e) (snd e)))
    (fun _ => ret tt).

(** [onPriceUpdate]; the initial price fetch it may start is not awaited
    and its result is dropped. *)
Definition onPriceUpdate (symbol : string) (callback : nat) : M unit :=
  modify (fun w =>
    let callbacks :=
      match Map_get symbol (priceUpdateCallbacks w) with
      | Some l => l
      | None => []
      end in
    with_callbacks
      (Map_set symbol (callbacks ++ [callback])%list (priceUpdateCallbacks w)) w) ;;
  modify (fun w =>
    if existsb (String.eqb symbol) (monitoredSymbols w) then w
    else with_monitored (monitoredSymbols w ++ [symbol]) w).

Definition stopMonitoring : M unit :=
  modify (fun w => with_callbacks [] (with_monitored [] w)).

(** ** [class WebhookService] (webhook.service.ts) *)

Definition MAX_RETRIES : nat := 3.
Definition RETRY_DELAY : Z := 1000.

(** [{ event, timestamp, data }] *)
Module Payload.
Record t := mk { event : string; timestamp : Z; data : Record_ }.
End Payload.

(** The text of a URL, as recorded in the event of a request. *)
Definition urlText (url : JsValue) : string :=
  match url with
  | VStr (Text s) => s
  | _ => ""
  end.

Definition posted (url : JsValue) (w : World) : World :=
  with_requests (S (requests w))
    (with_events (events w ++ [EvPost (urlText url) (now w)]) w).

(** [axios.post(url, payload, ...)]: resolves with the status on a 2xx
    response and rejects otherwise (axios' default [validateStatus]) or on a
    network error or timeout.  The answer to the n-th request is given by
    the environment. *)
Definition axios_post (url : JsValue) (payload : Payload.t) : M Z :=
  fun w =>
    let w' := posted url w in
    match http w (requests w) with
    | Response status =>
        if (200 <=? status) && (status <? 300) then (Ok status, w')
        else (Throw (HttpError (Some status)), w')
    | NetworkError => (Throw (HttpError None), w')
    end.

(** [await new Promise(resolve => setTimeout(resolve, ms))] *)
Definition sleep (ms : Z) : M unit :=
  modify (fun w => with_now (now w + ms) w) ;;
  emit (EvSleep ms).

Equations? sendWithRetry (url : JsValue) (payload : Payload.t) (attempt : nat)
    : M bool by wf (MAX_RETRIES - attempt)%nat lt :=
  sendWithRetry url payload attempt :=
    tryCatch
      (status <- axios_post url payload ;;
       if (200 <=? status) && (status <? 300) then ret true
       else throw (HttpError (Some status)))
      (fun _ =>
         match lt_dec attempt MAX_RETRIES with
         | left _ =>
             sleep (RETRY_DELAY * Z.of_nat attempt) ;;
             sendWithRetry url payload (attempt + 1)
         | right _ => ret false
         end).
Proof. lia. Qed.

Definition sendNotification (userId : UserId) (event : string) (data : Record_)
    : M bool :=
  tryCatch
    (webhookUrl <- getWebhook userId ;;
     match orNull webhookUrl with
     | None => ret false
     | Some url =>
         t <- gets now ;;
         sendWithRetry url (Payload.mk event t data) 1
     end)
    (fun _ => ret false).

(** ** [class WebhookService]: [testWebhook] *)

(** The [message] of the result: one of the two fixed texts, or
    [`Webhook test failed: ${error.message}`] with the error kept as it is. *)
Inductive TestMessage :=
| Literal (text : string)
| FailedWith (error : JsError).

Module TestResult.
Record t := mk { success : bool; message : TestMessage }.
End TestResult.

Definition testWebhook (url : string) : M TestResult.t :=
  tryCatch
    (t <- gets now ;;
     let testPayload :=
       Payload.mk "test" t
         [("message", VStr (Text "This is a test notification from SentinelTrade"))] in
     success <- sendWithRetry (VStr (Text url)) testPayload 1 ;;
     ret (TestResult.mk success
            (Literal (if success then "Webhook test successful"
                      else "Failed to deliver test webhook"))))
    (fun error => ret (TestResult.mk false (FailedWith error))).

(** ** Vocabulary of the statements *)

(** An HTTP outcome that [sendWithRetry] counts as delivered. *)
Definition succeeds (o : HttpOutcome) : bool :=
  match o with
  | Response status => (200 <=? status) && (status <? 300)
  | NetworkError => false
  end.

(** The world after a pause of [ms] milliseconds. *)
Definition slept (ms : Z) (w : World) : World :=
  with_events (events w ++ [EvSleep ms]) (with_now (now w + ms) w).

(** The events of a delivery to [u] started at time [t] in which every
    attempt fails. *)
Definition retrySchedule (u : string) (t : Z) : list Event :=
  [EvPost u t; EvSleep 1000; EvPost u (t + 1000); EvSleep 2000;
   EvPost u (t + 3000)].

(** [key] is held by neither backend. *)
Definition absentEverywhere (key : string) (w : World) : Prop :=
  Map_get key (inMemoryStorage w) = None /\
  match redis w with
  | Some c => store c !! key = None
  | None => True
  end.

(** What [clearUserAlerts(userId)] leaves of the fallback store: the
    entries whose key does not start with [`alert:${userId}`]. *)
Definition cleared (userId : UserId) (m : list (string * JsValue))
    : list (string * JsValue) :=
  List.filter (fun e => negb (startsWith (fst e) (alertPrefix userId))) m.

(** The setters written with [try]/[catch]: [setPriceAlert],
    [setUserPortfolio] and [setWebhook]. *)
Inductive Setter :=
| SetAlert (userId : UserId) (symbol : string) (price : float) (isAbove : bool)
| SetPortfolio (userId : UserId) (portfolio : Portfolio)
| SetWebhook (userId : UserId) (url : string).

Definition runSetter (s : Setter) : M unit :=
  match s with
  | SetAlert userId symbol price isAbove => setPriceAlert userId symbol price isAbove
  | SetPortfolio userId portfolio => setUserPortfolio userId portfolio
  | SetWebhook userId url => setWebhook userId url
  end.

(** The key a setter writes, the string it sends to the remote backend and
    the value it puts in the fallback store. *)
Definition setterKey (s : Setter) : string :=
  match s with
  | SetAlert userId symbol _ _ => getKey "alert" userId (Some symbol)
  | SetPortfolio userId _ => getKey "portfolio" userId None
  | SetWebhook userId _ => getKey "webhook" userId None
  end.

Definition setterWire (s : Setter) : JsString :=
  match s with
  | SetAlert _ symbol price isAbove => Json (OAlert (AlertData.mk symbol price isAbove))
  | SetPortfolio _ portfolio => Json (OPortfolio portfolio)
  | SetWebhook _ url => Text url
  end.

Definition setterValue (s : Setter) : JsValue :=
  match s with
  | SetAlert _ symbol price isAbove => VObj (OAlert (AlertData.mk symbol price isAbove))
  | SetPortfolio _ portfolio => VObj (OPortfolio portfolio)
  | SetWebhook _ url => VStr (Text url)
  end.

(** The entry written by [s] is held by the remote backend, or by the
    fallback store. *)
Definition heldRemotely (s : Setter) (w : World) : Prop :=
  exists c, redis w = Some c /\
            store c !! setterKey s = Some (setterWire s, None).

Definition heldLocally (s : Setter) (w : World) : Prop :=
  Map_get (setterKey s) (inMemoryStorage w) = Some (setterValue s).

(** The system with only the fallback store: no client at all. *)
Definition fallbackOnly (w : World) : World := with_redis None w.

(** The [set]/[get] operations offered to the front end, and what a
    caller observes of a sequence of them issued one after the other (an
    exception is an outcome; the caller goes on with the next call). *)
Inductive Op :=
| OSet (s : Setter)
| OGetAlerts (userId : UserId)
| OGetPortfolio (userId : UserId)
| OGetWebhook (userId : UserId)
| OCacheSet (key : string) (value : JsString) (expirySeconds : Z)
| OCacheGet (key : string).

Inductive Reply :=
| RUnit
| RRecord (r : Record_)
| RValue (v : JsValue)
| RMaybe (v : option JsValue).

Definition runOp (op : Op) : M Reply :=
  match op with
  | OSet s => runSetter s ;; ret RUnit
  | OGetAlerts userId => r <- getPriceAlerts userId ;; ret (RRecord r)
  | OGetPortfolio userId => v <- getUserPortfolio userId ;; ret (RValue v)
  | OGetWebhook userId => v <- getWebhook userId ;; ret (RMaybe v)
  | OCacheSet key value expirySeconds =>
      setCacheWithExpiry key value expirySeconds ;; ret RUnit
  | OCacheGet key => v <- getCache key ;; ret (RMaybe v)
  end.

Fixpoint observe (ops : list Op) (w : World) : list (Result Reply) :=
  match ops with
  | [] => []
  | op :: ops' => fst (runOp op w) :: observe ops' (snd (runOp op w))
  end.

(** Operations whose source has a [try]/[catch]. *)
Definition guarded (op : Op) : bool :=
  match op with
  | OCacheSet _ _ _ | OCacheGet _ => false
  | _ => true
  end.

(** The remote backend rejects every command. *)
Definition alwaysRejects (w : World) : Prop :=
  forall c, redis w = Some c -> forall n, fails c n = true.

(** The specification's [getAlertsForSymbol(symbol)]: the entries of the
    alert key space [alert:{userId}:{symbol}] that bear [symbol], whoever
    the user. *)
Definition alertsForSymbol (symbol : string) (m : list (string * JsValue))
    : list (string * JsValue) :=
  List.filter
    (fun e =>
       match split ":" (fst e) with
       | [type; _; s] => String.eqb type "alert" && String.eqb s symbol
       | _ => false
       end) m.

(** What the remote key space holds under [key]. *)
Definition remoteLookup (w : World) (key : string) : option (JsString * option Z) :=
  match redis w with
  | Some c => store c !! key
  | None => None
  end.

(** From [w] to [w'] no callback was invoked and no alert entry of either
    backend was written or deleted. *)
Definition alertsUntouched (w w' : World) : Prop :=
  events w' = events w /\
  forall key, startsWith key "alert:" = true ->
    Map_get key (inMemoryStorage w') = Map_get key (inMemoryStorage w) /\
    remoteLookup w' key = remoteLookup w key.

(** From [w] to [w'] the availability flag kept its value. *)
Definition sameFlag (w w' : World) : Prop :=
  isRedisAvailable w' = isRedisAvailable w.

(** A computation whose final world, however it ends, is related by [R] to
    the world it started in. *)
Definition stable {A} (R : World -> World -> Prop) (m : M A) : Prop :=
  forall w, R w (snd (m w)).

(** Leaving alerts and callbacks alone; leaving the flag alone. *)
Abbreviation quiet := (stable alertsUntouched).
Abbreviation keepsFlag := (stable sameFlag).

(** The remote backend accepts every command. *)
Definition neverRejects (w : World) : Prop :=
  forall c, redis w = Some c -> forall n, fails c n = false.

(** From [w] to [w'] neither backend's content changed, nor the flag, nor
    the clock; the client may have issued commands. *)
Definition sameStores (w w' : World) : Prop :=
  inMemoryStorage w' = inMemoryStorage w /\
  isRedisAvailable w' = isRedisAvailable w /\
  now w' = now w /\
  option_map (fun c => (store c, fails c)) (redis w') =
  option_map (fun c => (store c, fails c)) (redis w).

(** From [w] to [w'] no HTTP request was made and no event happened. *)
Definition sameTraffic (w w' : World) : Prop :=
  requests w' = requests w /\ http w' = http w /\ events w' = events w /\
  now w' = now w.

(** A string without a colon. *)
Fixpoint colonFree (s : string) : bool :=
  match s with
  | EmptyString => true
  | String c s' => negb (Ascii.eqb c ":") && colonFree s'
  end.

(** The optional symbol as [getKey] sees it: an empty symbol is no symbol. *)
Definition givenSymbol (symbol : option string) : option string :=
  match symbol with
  | Some s => if String.eqb s "" then None else Some s
  | None => None
  end.

(** What [getWebhook] gives back for a URL that was stored: an empty URL
    reads as [null]. *)
Definition storedUrl (url : string) : option JsValue :=
  if String.eqb url "" then None else Some (VStr (Text url)).

(** What [getKey] appends for the symbol. *)
Definition keyTail (symbol : option string) : string :=
  match givenSymbol symbol with
  | Some s => String ":" s
  | None => ""
  end.

(** The keys [KEYS pattern] returns at time [t] on key space [s]. *)
Definition matchingKeys (pattern : string) (t : Z)
    (s : gmap string (JsString * option Z)) : list string :=
  List.filter (globMatch pattern)
    (map fst (List.filter (fun kv => live t (snd kv)) (map_to_list s))).

(** A number that [JSON.stringify] followed by [JSON.parse] gives back as
    it is: a finite one other than the negative zero.  NaN and the
    infinities are written [null], and [-0] is written [0]. *)
Definition jsonExact (f : float) : bool :=
  PrimFloat.is_finite f && negb (PrimFloat.is_zero f && PrimFloat.get_sign f).

Definition jsonExactPortfolio (p : Portfolio) : bool :=
  forallb (fun e => jsonExact (snd e)) p.

(** The characters a JSON text can begin with: white space (tab, line
    feed, carriage return, space), an opening brace or bracket, a double
    quote, a minus sign, a digit, or the first letter of [true], [false]
    or [null]. *)
Definition beginsJson (c : ascii) : bool :=
  let n := nat_of_ascii c in
  ((n =? 9) || (n =? 10) || (n =? 13) || (n =? 32)
   || (n =? 123) || (n =? 91) || (n =? 34) || (n =? 45)
   || ((48 <=? n) && (n <=? 57))
   || (n =? 116) || (n =? 102) || (n =? 110))%nat.

(** A sufficient test for text that [JSON.parse] rejects: the empty text,
    and text whose first character begins no JSON value. *)
Definition cannotBeJson (text : string) : bool :=
  match text with
  | EmptyString => true
  | String c _ => negb (beginsJson c)
  end.

(** What the [catch] block of [getPriceAlerts] returns. *)
Definition fallbackListing (userId : UserId) (m : list (string * JsValue))
    : Record_ :=
  Object_fromEntries
    (map (fun e => (symbolOfKey (fst e), snd e))
       (List.filter (fun e => startsWith (fst e) (alertPrefix userId)) m)).

(** An alert key whose third segment is [__proto__]: assigning through
    that name sets the prototype of a plain object instead of adding a
    property to it, which [Object.fromEntries] does. *)
Definition namesProto (key : string) : bool :=
  startsWith key "alert:" && String.eqb (symbolOfKey key) "__proto__".

(** The keys written by the setters among [ops]. *)
Definition keysWritten (ops : list Op) : list string :=
  flat_map (fun op => match op with OSet s => [setterKey s] | _ => [] end) ops.

(** Neither the fallback store nor the setters of [ops] bring an alert
    named [__proto__]. *)
Definition protoFree (ops : list Op) (w : World) : bool :=
  forallb (fun k => negb (namesProto k))
    (map fst (inMemoryStorage w) ++ keysWritten ops)%list.


(** *** Worlds used as concrete inputs *)

(** A client whose every command is rejected, never connected: the service
    runs on [inMemoryStorage] alone.  Every HTTP request is answered 500. *)
Definition offline : World :=
  mkWorld (Some (mkRedis ∅ (fun _ => true) 0)) [] false [] [] 0
    (fun _ => Response 500) 0 [].

(** The same, but the service still believes the backend is available:
    the remote cache throws on every call. *)
Definition throwing : World := with_available true offline.

(** Users 1 and 12 each hold an alert, on the fallback store. *)
Definition twoUsers : World :=
  snd ((setPriceAlert (IdNum 1) "DOT" 5.0 true ;;
        setPriceAlert (IdNum 12) "KSM" 30.0 false) offline).

(** User 12, then user 1, each set an alert on DOT, on the fallback store. *)
Definition sameSymbol : World :=
  snd ((setPriceAlert (IdNum 12) "DOT" 6.0 false ;;
        setPriceAlert (IdNum 1) "DOT" 5.0 true) offline).

(** A backend that is connected and accepts every command, and Scenario A
    played on it. *)
Definition connected : World :=
  mkWorld (Some (mkRedis ∅ (fun _ => false) 0)) [] true [] [] 0
    (fun _ => Response 500) 0 [].

Definition scenarioA_remote : World :=
  snd ((onPriceUpdate "DOT" 7%nat ;;
        setPriceAlert (IdNum 42) "DOT" 5.0 true) connected).


(** The client exists and would accept every command, but no connection
    event has been seen yet: the service runs on the fallback store. *)
Definition notYetConnected : World := with_available false connected.

(** The backend is in use and accepts every command; under an alert key
    of user 42 it holds text that is not JSON. *)
Definition corrupted : World :=
  mkWorld
    (Some (mkRedis (<["alert:42:DOT" := (Text "corrupted entry", None)]> ∅)
             (fun _ => false) 0))
    [("alert:42:KSM", VObj (OAlert (AlertData.mk "KSM" 30.0 false)))]
    true [] [] 0 (fun _ => Response 500) 0 [].

(** A web server answering 500 to the first request and 200 afterwards. *)
Definition recovering : World :=
  mkWorld None [] false [] [] 0
    (fun n => match n with O => Response 500 | _ => Response 200 end) 0 [].

(** Scenario A of the specification: callback 7 subscribed to DOT, and user
    42 holding an alert "DOT above 5.0", all on the fallback store. *)
Definition scenarioA : World :=
  snd ((onPriceUpdate "DOT" 7%nat ;;
        setPriceAlert (IdNum 42) "DOT" 5.0 true) offline).

(** Callback 7 subscribed to DOT and user 42 holding an alert on DOT at
    100, above or below, on the fallback store. *)
Definition boundary (isAbove : bool) : World :=
  snd ((onPriceUpdate "DOT" 7%nat ;;
        setPriceAlert (IdNum 42) "DOT" 100 isAbove) offline).

(** A price snapshot. *)
Definition quote (price : float) : PriceData.t := PriceData.mk price 0 0 0.

Definition hook : JsValue := VStr (Text "https://example.org/hook").
Definition ping : Payload.t := Payload.mk "test" 0 [].

(** * Properties *)

(** ** Webhook dispatcher *)

Lemma sleep_run ms w : sleep ms w = (Ok tt, slept ms w).
Proof. reflexivity. Qed.

Lemma axios_post_success url payload w :
  succeeds (http w (requests w)) = true ->
  exists status,
    axios_post url payload w = (Ok status, posted url w) /\
    (200 <=? status) && (status <? 300) = true.
Proof.
  unfold axios_post, succeeds. intros H.
  destruct (http w (requests w)) as [status|]; [|discriminate].
  exists status. rewrite H. split; reflexivity || assumption.
Qed.

Lemma axios_post_failure url payload w :
  succeeds (http w (requests w)) = false ->
  exists e, axios_post url payload w = (Throw e, posted url w).
Proof.
  unfold axios_post, succeeds. intros H.
  destruct (http w (requests w)) as [status|]; [rewrite H|]; eauto.
Qed.

Lemma attempt_success url payload attempt w :
  succeeds (http w (requests w)) = true ->
  sendWithRetry url payload attempt w = (Ok true, posted url w).
Proof.
  intros H. rewrite sendWithRetry_equation_1.
  destruct (axios_post_success url payload w H) as (status & Hpost & H2xx).
  unfold tryCatch, bind. rewrite Hpost, H2xx. reflexivity.
Qed.

Lemma attempt_retry url payload attempt w :
  succeeds (http w (requests w)) = false ->
  (attempt < MAX_RETRIES)%nat ->
  sendWithRetry url payload attempt w =
  sendWithRetry url payload (attempt + 1)
    (slept (RETRY_DELAY * Z.of_nat attempt) (posted url w)).
Proof.
  intros H Hlt. rewrite sendWithRetry_equation_1.
  destruct (axios_post_failure url payload w H) as (e & Hpost).
  unfold tryCatch at 1. unfold bind at 1. rewrite Hpost.
  destruct (lt_dec attempt MAX_RETRIES) as [_|Hge]; [|contradiction].
  unfold bind. rewrite sleep_run. reflexivity.
Qed.

Lemma attempt_last url payload attempt w :
  succeeds (http w (requests w)) = false ->
  ~ (attempt < MAX_RETRIES)%nat ->
  sendWithRetry url payload attempt w = (Ok false, posted url w).
Proof.
  intros H Hge. rewrite sendWithRetry_equation_1.
  destruct (axios_post_failure url payload w H) as (e & Hpost).
  unfold tryCatch at 1. unfold bind at 1. rewrite Hpost.
  destruct (lt_dec attempt MAX_RETRIES) as [Hlt|_]; [contradiction|].
  reflexivity.
Qed.

(** Whatever the server answers, a delivery returns a boolean: it never
    throws. *)
Lemma sendWithRetry_total url payload attempt w :
  exists b w', sendWithRetry url payload attempt w = (Ok b, w').
Proof.
  remember (MAX_RETRIES - attempt)%nat as fuel eqn:Hfuel.
  revert attempt w Hfuel.
  induction fuel as [|fuel IH]; intros attempt w Hfuel;
    destruct (succeeds (http w (requests w))) eqn:Hs;
    try (rewrite attempt_success by assumption; eauto).
  - rewrite attempt_last by (assumption || lia). eauto.
  - rewrite attempt_retry by (assumption || lia). apply IH. lia.
Qed.

(** C4. When every attempt fails, [sendWithRetry] posts exactly three times,
    pausing 1000 ms after the first failure and 2000 ms after the second
    (nothing before the first attempt), and returns [false] without
    throwing.  When the first 2xx answer comes at attempt [k + 1] (of at
    most three), it returns [true] right after that attempt: the events are
    the first [2k + 1] of the schedule and no further request is made. *)
Theorem sendWithRetry_retry_bound (url : JsValue) (payload : Payload.t) (w : World) :
  ((forall k, (k < MAX_RETRIES)%nat ->
      succeeds (http w (requests w + k)) = false) ->
   exists w',
     sendWithRetry url payload 1 w = (Ok false, w') /\
     requests w' = (requests w + 3)%nat /\
     events w' = (events w ++ retrySchedule (urlText url) (now w))%list)
  /\
  (forall k, (k < MAX_RETRIES)%nat ->
     (forall j, (j < k)%nat -> succeeds (http w (requests w + j)) = false) ->
     succeeds (http w (requests w + k)) = true ->
     exists w',
       sendWithRetry url payload 1 w = (Ok true, w') /\
       requests w' = (requests w + k + 1)%nat /\
       events w' =
         (events w ++
          firstn (2 * k + 1) (retrySchedule (urlText url) (now w)))%list).
Proof.
  assert (Hlt1 : (1 < MAX_RETRIES)%nat) by (unfold MAX_RETRIES; lia).
  assert (Hlt2 : (1 + 1 < MAX_RETRIES)%nat) by (unfold MAX_RETRIES; lia).
  assert (Hge3 : ~ (1 + 1 + 1 < MAX_RETRIES)%nat) by (unfold MAX_RETRIES; lia).
  split.
  - intros Hfail.
    pose proof (Hfail 0%nat ltac:(unfold MAX_RETRIES; lia)) as H0.
    pose proof (Hfail 1%nat ltac:(unfold MAX_RETRIES; lia)) as H1.
    pose proof (Hfail 2%nat ltac:(unfold MAX_RETRIES; lia)) as H2.
    replace (requests w + 0)%nat with (requests w) in H0 by lia.
    replace (requests w + 1)%nat with (S (requests w)) in H1 by lia.
    replace (requests w + 2)%nat with (S (S (requests w))) in H2 by lia.
    rewrite attempt_retry by assumption.
    rewrite attempt_retry by assumption.
    rewrite attempt_last by assumption.
    eexists. split; [reflexivity|]. split.
    + simpl. lia.
    + simpl. rewrite <- !app_assoc. simpl.
      unfold retrySchedule, RETRY_DELAY.
      change (1000 * Z.of_nat 1) with 1000. change (1000 * Z.of_nat 2) with 2000.
      replace (now w + 1000 + 2000) with (now w + 3000) by lia. reflexivity.
  - intros k Hk Hbefore Hok.
    destruct k as [|[|[|k]]]; [| | |unfold MAX_RETRIES in Hk; lia].
    + replace (requests w + 0)%nat with (requests w) in Hok by lia.
      rewrite attempt_success by assumption.
      eexists. split; [reflexivity|]. split; simpl; [lia|reflexivity].
    + pose proof (Hbefore 0%nat ltac:(lia)) as H0.
      replace (requests w + 0)%nat with (requests w) in H0 by lia.
      replace (requests w + 1)%nat with (S (requests w)) in Hok by lia.
      rewrite attempt_retry by assumption.
      rewrite attempt_success by assumption.
      eexists. split; [reflexivity|]. split; simpl; [lia|].
      rewrite <- !app_assoc. reflexivity.
    + pose proof (Hbefore 0%nat ltac:(lia)) as H0.
      pose proof (Hbefore 1%nat ltac:(lia)) as H1.
      replace (requests w + 0)%nat with (requests w) in H0 by lia.
      replace (requests w + 1)%nat with (S (requests w)) in H1 by lia.
      replace (requests w + 2)%nat with (S (S (requests w))) in Hok by lia.
      rewrite attempt_retry by assumption.
      rewrite attempt_retry by assumption.
      rewrite attempt_success by assumption.
      eexists. split; [reflexivity|]. split; simpl; [lia|].
      rewrite <- !app_assoc. simpl.
      unfold retrySchedule, RETRY_DELAY.
      change (1000 * Z.of_nat 1) with 1000. change (1000 * Z.of_nat 2) with 2000.
      replace (now w + 1000 + 2000) with (now w + 3000) by lia. reflexivity.
Qed.

Lemma sendWithRetry_retry_bound_witness :
  (exists w',
     sendWithRetry hook ping 1 offline = (Ok false, w') /\
     requests w' = 3%nat /\
     events w' = retrySchedule "https://example.org/hook" 0) /\
  (exists w',
     sendWithRetry hook ping 1 recovering = (Ok true, w') /\
     requests w' = 2%nat /\
     events w' = firstn 3 (retrySchedule "https://example.org/hook" 0)).
Proof.
  split.
  - apply (proj1 (sendWithRetry_retry_bound hook ping offline)).
    intros k Hk. reflexivity.
  - apply (proj2 (sendWithRetry_retry_bound hook ping recovering) 1%nat).
    + unfold MAX_RETRIES. lia.
    + intros j Hj. assert (j = 0%nat) as -> by lia. reflexivity.
    + reflexivity.
Defined.

(** With a URL registered on the fallback store, a notification is one
    delivery, and its outcome is the delivery's. *)
Lemma sendNotification_delivers userId event data url w :
  redisInUse w = false ->
  Map_get (getKey "webhook" userId None) (inMemoryStorage w) = Some url ->
  truthy url = true ->
  sendNotification userId event data w =
  sendWithRetry url (Payload.mk event (now w) data) 1 w.
Proof.
  intros Hoff Hurl Htruthy. unfold sendNotification, tryCatch.
  unfold bind at 1. unfold getWebhook, tryCatch.
  unfold bind at 1. change (useRedis w) with (Ok (redisInUse w), w).
  rewrite Hoff. unfold bind, memGet, gets. rewrite Hurl.
  cbn [ret orNull]. rewrite Htruthy. cbn [orNull]. rewrite Htruthy.
  destruct (sendWithRetry_total url (Payload.mk event (now w) data) 1 w)
    as (b & w' & Hsend).
  now rewrite Hsend.
Qed.

(** ** [Map] operations *)

Section MapFacts.
Context {V : Type}.
Implicit Types (k : string) (v : V) (m : list (string * V)).

Lemma Map_get_set k v m : Map_get k (Map_set k v m) = Some v.
Proof.
  induction m as [|[k' v'] m IH]; simpl.
  - now rewrite String.eqb_refl.
  - destruct (String.eqb k k') eqn:E; simpl.
    + now rewrite String.eqb_refl.
    + now rewrite E.
Qed.

Lemma Map_get_set_other k k' v m :
  k <> k' -> Map_get k' (Map_set k v m) = Map_get k' m.
Proof.
  intros Hne. induction m as [|[k0 v0] m IH]; simpl.
  - destruct (String.eqb_spec k' k); congruence.
  - destruct (String.eqb_spec k k0) as [->|Hk]; simpl.
    + destruct (String.eqb_spec k' k0); congruence.
    + destruct (String.eqb_spec k' k0); congruence.
Qed.

Lemma Map_get_delete k m : Map_get k (Map_delete k m) = None.
Proof.
  unfold Map_delete. induction m as [|[k' v'] m IH]; simpl; [reflexivity|].
  destruct (String.eqb_spec k k') as [->|Hk]; simpl; [assumption|].
  destruct (String.eqb_spec k k'); congruence.
Qed.

Lemma Map_get_delete_other k k' m :
  k <> k' -> Map_get k' (Map_delete k m) = Map_get k' m.
Proof.
  intros Hne. unfold Map_delete.
  induction m as [|[k0 v0] m IH]; simpl; [reflexivity|].
  destruct (String.eqb_spec k k0) as [->|Hk]; simpl.
  - destruct (String.eqb_spec k' k0); congruence.
  - destruct (String.eqb_spec k' k0); congruence.
Qed.

(** Reading a key after filtering the entries on their keys. *)
Lemma Map_get_filter (keep : string -> bool) k m :
  Map_get k (List.filter (fun e => keep (fst e)) m) =
  if keep k then Map_get k m else None.
Proof.
  induction m as [|[k' v'] m IH]; simpl.
  - now destruct (keep k).
  - destruct (keep k') eqn:Hk'; simpl.
    + destruct (String.eqb_spec k k') as [->|Hne].
      * now rewrite Hk'.
      * assumption.
    + rewrite IH. destruct (String.eqb_spec k k') as [->|Hne].
      * now rewrite Hk'.
      * reflexivity.
Qed.
End MapFacts.

(** ** The cache on its fallback store *)

Lemma with_memory_same w : with_memory (inMemoryStorage w) w = w.
Proof. now destruct w. Qed.

Lemma useRedis_run w : useRedis w = (Ok (redisInUse w), w).
Proof. reflexivity. Qed.

(** Running a method whose first step is the backend test. *)
Ltac backend w :=
  unfold bind at 1; rewrite (useRedis_run w);
  match goal with
  | H : redisInUse w = _ |- _ => rewrite H
  end.

Lemma setCacheWithExpiry_fallback key value expirySeconds w :
  redisInUse w = false ->
  setCacheWithExpiry key value expirySeconds w =
  (Ok tt, with_memory (Map_set key (VStr value) (inMemoryStorage w)) w).
Proof. intros H. unfold setCacheWithExpiry. backend w. reflexivity. Qed.

Lemma getCache_fallback key w :
  redisInUse w = false ->
  getCache key w = (Ok (orNull (Map_get key (inMemoryStorage w))), w).
Proof. intros H. unfold getCache. backend w. reflexivity. Qed.

Lemma removePriceAlert_fallback userId symbol isAbove w :
  redisInUse w = false ->
  removePriceAlert userId symbol isAbove w =
  (Ok tt,
   with_memory
     (Map_delete (getKey "alert" userId (Some symbol)) (inMemoryStorage w)) w).
Proof. intros H. unfold removePriceAlert. backend w. reflexivity. Qed.

Lemma getPriceAlerts_fallback userId w :
  redisInUse w = false ->
  getPriceAlerts userId w = (Ok (scanMemory userId (inMemoryStorage w)), w).
Proof.
  intros H. unfold getPriceAlerts, tryCatch. backend w. reflexivity.
Qed.

(** C9 (as amended). On the fallback store (backend not in use),
    [setCacheWithExpiry] stores the value with no expiry: for every key,
    every non-empty value, every ttl and every lapse of time, a later
    [getCache] returns the value; the entry written is the bare value. *)
Theorem fallback_entries_never_expire
    (key : string) (value : JsString) (expirySeconds elapsed : Z) (w : World) :
  redisInUse w = false ->
  truthyStr value = true ->
  exists w',
    (setCacheWithExpiry key value expirySeconds ;;
     elapse elapsed ;;
     getCache key) w = (Ok (Some (VStr value)), w') /\
    inMemoryStorage w' = Map_set key (VStr value) (inMemoryStorage w).
Proof.
  intros Hoff Hvalue. unfold bind at 1.
  rewrite setCacheWithExpiry_fallback by assumption.
  unfold bind, elapse, modify.
  rewrite getCache_fallback by (simpl; assumption).
  simpl. rewrite Map_get_set. simpl. rewrite Hvalue.
  eexists. split; reflexivity.
Qed.

Lemma fallback_entries_never_expire_witness :
  exists w',
    (setCacheWithExpiry "price:DOT" (Text "{}") 300 ;;
     elapse 301000 ;;
     getCache "price:DOT") offline = (Ok (Some (VStr (Text "{}"))), w') /\
    inMemoryStorage w' = Map_set "price:DOT" (VStr (Text "{}")) (inMemoryStorage offline).
Proof.
  apply (fallback_entries_never_expire "price:DOT" (Text "{}") 300 301000 offline);
    reflexivity.
Defined.

(** C9, counterexample to the claim as stated: an empty string is stored
    but read back as [null], because of [|| null] in [getCache]. *)
Lemma getCache_empty_value_counterexample :
  fst ((setCacheWithExpiry "k" (Text "") 300 ;; getCache "k") offline)
    = Ok None /\
  fst ((setCacheWithExpiry "k" (Text "") 300 ;; getCache "k") offline)
    <> Ok (Some (VStr (Text ""))).
Proof. split; [reflexivity | discriminate]. Qed.

(** C8, counterexample to the claim as stated: user 42 holds an ABOVE alert
    on DOT; removing "DOT, BELOW" deletes it. *)
Lemma removeAlert_other_direction_counterexample :
  Map_get "alert:42:DOT" (inMemoryStorage scenarioA)
    = Some (VObj (OAlert (AlertData.mk "DOT" 5.0 true))) /\
  Map_get "alert:42:DOT"
    (inMemoryStorage (snd (removePriceAlert (IdNum 42) "DOT" false scenarioA)))
    = None.
Proof. split; reflexivity. Qed.

(** C8 (as amended). [removePriceAlert] does not look at the direction it
    is given: whatever that is, also when it differs from the stored
    alert's, the call does the same.  When the fallback store is in use,
    or the remote backend is in use and accepts the [DEL], the entry under
    [alert:{userId}:{symbol}] is deleted from the backend in use and no
    other entry of that backend changes.  When the remote backend is in
    use and rejects the [DEL], the call throws and both stores keep every
    entry. *)
Theorem removePriceAlert_ignores_direction
    (userId : UserId) (symbol : string) (w : World) :
  (forall isAbove isAbove',
     removePriceAlert userId symbol isAbove w =
     removePriceAlert userId symbol isAbove' w) /\
  (redisInUse w = false ->
   forall isAbove, exists w',
     removePriceAlert userId symbol isAbove w = (Ok tt, w') /\
     Map_get (getKey "alert" userId (Some symbol)) (inMemoryStorage w') = None /\
     forall k, k <> getKey "alert" userId (Some symbol) ->
       Map_get k (inMemoryStorage w') = Map_get k (inMemoryStorage w)) /\
  (forall c, redisInUse w = true -> redis w = Some c ->
   fails c (issued c) = false ->
   forall isAbove, exists w' c',
     removePriceAlert userId symbol isAbove w = (Ok tt, w') /\
     redis w' = Some c' /\
     store c' !! getKey "alert" userId (Some symbol) = None /\
     forall k, k <> getKey "alert" userId (Some symbol) ->
       store c' !! k = store c !! k) /\
  (forall c, redisInUse w = true -> redis w = Some c ->
   fails c (issued c) = true ->
   forall isAbove, exists w' c',
     removePriceAlert userId symbol isAbove w = (Throw RedisError, w') /\
     inMemoryStorage w' = inMemoryStorage w /\
     redis w' = Some c' /\ store c' = store c).
Proof.
  split; [reflexivity|]. split; [|split].
  - intros Hoff isAbove. rewrite removePriceAlert_fallback by assumption.
    eexists. split; [reflexivity|]. simpl. split.
    + apply Map_get_delete.
    + intros k Hk. now apply Map_get_delete_other.
  - intros c Hon Hc Hok isAbove. unfold removePriceAlert. backend w.
    unfold redis_del, command. rewrite Hc, Hok. simpl.
    do 2 eexists. split; [reflexivity|]. split; [reflexivity|]. simpl. split.
    + apply lookup_delete_eq.
    + intros k Hk. now apply lookup_delete_ne.
  - intros c Hon Hc Hko isAbove. unfold removePriceAlert. backend w.
    unfold redis_del, command. rewrite Hc, Hko.
    do 2 eexists. repeat split; reflexivity.
Qed.

Lemma removePriceAlert_ignores_direction_witness :
  exists w',
    removePriceAlert (IdNum 42) "DOT" false scenarioA = (Ok tt, w') /\
    Map_get (getKey "alert" (IdNum 42) (Some "DOT")) (inMemoryStorage w') = None /\
    forall k, k <> getKey "alert" (IdNum 42) (Some "DOT") ->
      Map_get k (inMemoryStorage w') = Map_get k (inMemoryStorage scenarioA).
Proof.
  apply (proj1 (proj2 (removePriceAlert_ignores_direction (IdNum 42) "DOT" scenarioA))).
  reflexivity.
Defined.

(** ** Webhook lookup *)

Lemma getWebhook_absent userId w :
  absentEverywhere (getKey "webhook" userId None) w ->
  exists w',
    getWebhook userId w = (Ok None, w') /\
    requests w' = requests w /\ events w' = events w.
Proof.
  intros [Hmem Hremote]. unfold getWebhook, tryCatch.
  unfold bind at 1. rewrite useRedis_run.
  destruct (redisInUse w) eqn:Hb.
  - unfold bind, redis_get, command.
    destruct (redis w) as [c|] eqn:Hc.
    + destruct (fails c (issued c)); simpl.
      * unfold memGet, gets. simpl. rewrite Hmem. eauto.
      * rewrite Hremote. simpl. eauto.
    + unfold memGet, gets. simpl. rewrite Hmem. eauto.
  - unfold bind, memGet, gets. rewrite Hmem. simpl. eauto.
Qed.

(** C5. For a user with no webhook URL held by either backend,
    [sendNotification] returns [false] (it does not throw), whatever the
    backend does, and makes no HTTP request. *)
Theorem sendNotification_without_webhook
    (userId : UserId) (event : string) (data : Record_) (w : World) :
  absentEverywhere (getKey "webhook" userId None) w ->
  exists w',
    sendNotification userId event data w = (Ok false, w') /\
    requests w' = requests w /\
    events w' = events w.
Proof.
  intros Habsent.
  destruct (getWebhook_absent userId w Habsent) as (w' & Hget & Hreq & Hev).
  unfold sendNotification, tryCatch. unfold bind at 1. rewrite Hget. simpl.
  exists w'. auto.
Qed.

Lemma sendNotification_without_webhook_witness :
  exists w',
    sendNotification (IdNum 7) "price_alert" [] throwing = (Ok false, w') /\
    requests w' = requests throwing /\
    events w' = events throwing.
Proof.
  apply (sendNotification_without_webhook (IdNum 7) "price_alert" [] throwing).
  split; reflexivity.
Defined.

(** ** Key prefixes *)

Lemma prefix_append_l a p s :
  String.prefix (a ++ p) (a ++ s) = String.prefix p s.
Proof.
  induction a as [|c a IH]; [reflexivity|].
  change (String.prefix (String c (a ++ p)) (String c (a ++ s)) = String.prefix p s).
  simpl. destruct (ascii_dec c c); [assumption | congruence].
Qed.

Lemma prefix_append_r p s t :
  String.prefix p s = true -> String.prefix p (s ++ t) = true.
Proof.
  revert s. induction p as [|c p IH]; intros s H;
    [now destruct (s ++ t)|].
  destruct s as [|d s]; [discriminate|].
  change (String.prefix (String c p) (String d (s ++ t)) = true).
  simpl in *. destruct (ascii_dec c d); [now apply IH | discriminate].
Qed.

(** Every alert key of [u2] starts with the prefix tested for [u1] as soon
    as the digits of [u1] begin those of [u2]. *)
Lemma alert_key_overlap (u1 u2 : Z) (symbol : option string) :
  String.prefix (pretty u1) (pretty u2) = true ->
  startsWith (getKey "alert" (IdNum u2) symbol) (alertPrefix (IdNum u1)) = true.
Proof.
  intros H. unfold startsWith, getKey, alertPrefix, idText.
  change ("alert" ++ ":" ++ pretty u2 ++
          match symbol with
          | Some s => if String.eqb s "" then "" else ":" ++ s
          | None => ""
          end)
    with ("alert:" ++ (pretty u2 ++
          match symbol with
          | Some s => if String.eqb s "" then "" else ":" ++ s
          | None => ""
          end)).
  rewrite prefix_append_l. now apply prefix_append_r.
Qed.

(** ** [clearUserAlerts] and [getPriceAlerts] on the fallback store *)

Lemma filter_twice {A} (f g : A -> bool) (l : list A) :
  List.filter f (List.filter g l) = List.filter (fun x => g x && f x) l.
Proof.
  induction l as [|x l IH]; simpl; [reflexivity|].
  destruct (g x); simpl; [destruct (f x)|]; now rewrite IH.
Qed.

Section ClearLoop.
Variable userId : UserId.

Let body (key : string) : M unit :=
  if startsWith key (alertPrefix userId) then memDelete key else ret tt.

Let step (m : list (string * JsValue)) (key : string) :=
  if startsWith key (alertPrefix userId) then Map_delete key m else m.

Lemma forEach_delete (keys : list string) (w : World) :
  forEach keys body w =
  (Ok tt, with_memory (fold_left step keys (inMemoryStorage w)) w).
Proof.
  revert w. induction keys as [|key keys IH]; intros w; simpl.
  - unfold ret. now rewrite with_memory_same.
  - unfold bind, body at 1, step at 2.
    destruct (startsWith key (alertPrefix userId)).
    + unfold memDelete, modify. rewrite IH. reflexivity.
    + unfold ret. apply IH.
Qed.

Lemma fold_delete_filter (keys : list string) (m : list (string * JsValue)) :
  fold_left step keys m =
  List.filter
    (fun e => negb (existsb (fun key => startsWith key (alertPrefix userId) &&
                                        String.eqb key (fst e)) keys)) m.
Proof.
  revert m. induction keys as [|key keys IH]; intros m; simpl.
  - induction m as [|e m IHm]; simpl; congruence.
  - rewrite IH. unfold step.
    destruct (startsWith key (alertPrefix userId)); simpl.
    + unfold Map_delete. rewrite filter_twice. apply filter_ext.
      intros e. now rewrite negb_orb.
    + reflexivity.
Qed.

Lemma clearMemoryAlerts_run (w : World) :
  clearMemoryAlerts userId w =
  (Ok tt, with_memory (cleared userId (inMemoryStorage w)) w).
Proof.
  unfold clearMemoryAlerts, bind, gets. fold body. rewrite forEach_delete.
  rewrite fold_delete_filter. do 2 f_equal. unfold cleared.
  apply filter_ext_in. intros e He. f_equal.
  destruct (startsWith (fst e) (alertPrefix userId)) eqn:Hp.
  - apply existsb_exists. exists (fst e). split.
    + apply in_map_iff. eauto.
    + now rewrite Hp, String.eqb_refl.
  - apply not_true_is_false. intros Hex.
    apply existsb_exists in Hex as (key & _ & Hkey).
    apply andb_prop in Hkey as [Hk Heq].
    apply String.eqb_eq in Heq. congruence.
Qed.
End ClearLoop.

(** Whatever the backend does, [clearUserAlerts] returns normally and has
    cleared the fallback store. *)
Lemma clearUserAlerts_run userId w :
  exists w',
    clearUserAlerts userId w = (Ok tt, w') /\
    inMemoryStorage w' = cleared userId (inMemoryStorage w).
Proof.
  unfold clearUserAlerts, tryCatch. unfold bind at 1. rewrite useRedis_run.
  destruct (redisInUse w).
  - unfold bind at 1. unfold bind at 1. unfold redis_keys at 1, command at 1.
    destruct (redis w) as [c|] eqn:Hc.
    + destruct (fails c (issued c)) eqn:Hf.
      * rewrite clearMemoryAlerts_run. eauto.
      * cbv zeta. match goal with |- context [(0 <? length ?l)%nat] =>
          destruct (0 <? length l)%nat end.
        -- unfold redis_del, command. cbn [redis with_redis issued fails store].
           match goal with |- context [if ?b then _ else _] => destruct b end;
             rewrite clearMemoryAlerts_run; eauto.
        -- unfold ret. rewrite clearMemoryAlerts_run. eauto.
    + rewrite clearMemoryAlerts_run. eauto.
  - unfold bind, ret. rewrite clearMemoryAlerts_run. eauto.
Qed.

(** An entry reported by the in-memory scan stays reported under its
    symbol unless a later matching entry bears the same symbol. *)
Lemma scan_keeps userId (rest : list (string * JsValue)) :
  forall (alerts : Record_) (symbol : string) (value : JsValue),
  Map_get symbol alerts = Some value ->
  (forall e, In e rest ->
     startsWith (fst e) (alertPrefix userId) = true ->
     symbolOfKey (fst e) <> symbol) ->
  Map_get symbol
    (fold_left
       (fun alerts e =>
          if startsWith (fst e) (alertPrefix userId)
          then Map_set (symbolOfKey (fst e)) (snd e) alerts
          else alerts) rest alerts) = Some value.
Proof.
  induction rest as [|e rest IH]; intros alerts symbol value Hget Hlater;
    simpl; [assumption|].
  apply IH.
  - destruct (startsWith (fst e) (alertPrefix userId)) eqn:Hp; [|assumption].
    rewrite Map_get_set_other; [assumption|].
    apply Hlater; [now left | assumption].
  - intros e' He'. apply Hlater. now right.
Qed.

Lemma scanMemory_reports userId before key value after :
  startsWith key (alertPrefix userId) = true ->
  (forall e, In e after ->
     startsWith (fst e) (alertPrefix userId) = true ->
     symbolOfKey (fst e) <> symbolOfKey key) ->
  Map_get (symbolOfKey key)
    (scanMemory userId (before ++ (key, value) :: after)) = Some value.
Proof.
  intros Hkey Hlater. unfold scanMemory. rewrite fold_left_app. simpl.
  rewrite Hkey. apply scan_keeps; [apply Map_get_set | assumption].
Qed.

(** C10 (as amended). [clearUserAlerts(userId)] removes from the fallback
    store exactly the entries whose key starts with "alert:" followed by the
    decimal digits of [userId], no separator being required after them.
    Hence, when the digits of [u1] are a proper prefix of those of [u2]
    (1 and 12), [clearUserAlerts(u1)] also deletes every alert of [u2] held
    by the fallback store, and on the fallback store [getPriceAlerts(u1)]
    also reports each alert of [u2], under the symbol cut from its key,
    unless a later entry matching the prefix bears the same symbol (the
    result has one slot per symbol). *)
Theorem clearUserAlerts_prefix_overlap (u1 u2 : Z) (w : World) :
  (exists w',
     clearUserAlerts (IdNum u1) w = (Ok tt, w') /\
     inMemoryStorage w' =
       List.filter
         (fun e => negb (startsWith (fst e) ("alert:" ++ pretty u1)))
         (inMemoryStorage w)) /\
  (u1 <> u2 ->
   String.prefix (pretty u1) (pretty u2) = true ->
   (exists w',
      clearUserAlerts (IdNum u1) w = (Ok tt, w') /\
      forall symbol,
        Map_get (getKey "alert" (IdNum u2) (Some symbol)) (inMemoryStorage w')
          = None) /\
   (redisInUse w = false ->
    forall symbol value before after,
      inMemoryStorage w =
        (before ++ (getKey "alert" (IdNum u2) (Some symbol), value) :: after)%list ->
      (forall e, In e after ->
         startsWith (fst e) ("alert:" ++ pretty u1) = true ->
         symbolOfKey (fst e) <>
           symbolOfKey (getKey "alert" (IdNum u2) (Some symbol))) ->
      exists alerts,
        getPriceAlerts (IdNum u1) w = (Ok alerts, w) /\
        Map_get (symbolOfKey (getKey "alert" (IdNum u2) (Some symbol))) alerts
          = Some value)).
Proof.
  destruct (clearUserAlerts_run (IdNum u1) w) as (w' & Hrun & Hmem).
  split; [exists w'; split; assumption|].
  intros Hne Hprefix. split.
  - exists w'. split; [assumption|]. intros symbol. rewrite Hmem.
    unfold cleared.
    rewrite (Map_get_filter
               (fun k => negb (startsWith k (alertPrefix (IdNum u1))))).
    now rewrite alert_key_overlap.
  - intros Hoff symbol value before after Hstore Hlater.
    rewrite getPriceAlerts_fallback by assumption.
    eexists. split; [reflexivity|]. rewrite Hstore.
    apply scanMemory_reports; [now apply alert_key_overlap | assumption].
Qed.

Lemma clearUserAlerts_prefix_overlap_witness :
  (exists w',
     clearUserAlerts (IdNum 1) twoUsers = (Ok tt, w') /\
     forall symbol,
       Map_get (getKey "alert" (IdNum 12) (Some symbol)) (inMemoryStorage w')
         = None) /\
  (exists alerts,
     getPriceAlerts (IdNum 1) twoUsers = (Ok alerts, twoUsers) /\
     Map_get "KSM" alerts
       = Some (VObj (OAlert (AlertData.mk "KSM" 30.0 false)))).
Proof.
  assert (H1 : 1 <> 12) by lia.
  assert (H2 : String.prefix (pretty 1) (pretty 12) = true) by reflexivity.
  destruct (proj2 (clearUserAlerts_prefix_overlap 1 12 twoUsers) H1 H2)
    as [Hclear Hget].
  split; [exact Hclear|].
  apply (Hget eq_refl "KSM" (VObj (OAlert (AlertData.mk "KSM" 30.0 false)))
           [("alert:1:DOT", VObj (OAlert (AlertData.mk "DOT" 5.0 true)))] []).
  - reflexivity.
  - intros e [].
Defined.

(** ** Setters with a fallback *)

Lemma runSetter_shape (s : Setter) :
  runSetter s =
  tryCatch
    (b <- useRedis ;;
     if b then redis_set (setterKey s) (setterWire s) None
     else memSet (setterKey s) (setterValue s))
    (fun _ => memSet (setterKey s) (setterValue s)).
Proof. destruct s; reflexivity. Qed.

(** The three ways a setter can go. *)
Lemma runSetter_fallback s w :
  redisInUse w = false ->
  runSetter s w =
  (Ok tt, with_memory (Map_set (setterKey s) (setterValue s) (inMemoryStorage w)) w).
Proof.
  intros H. rewrite runSetter_shape. unfold tryCatch. backend w. reflexivity.
Qed.

Lemma runSetter_remote s w c :
  redisInUse w = true -> redis w = Some c -> fails c (issued c) = false ->
  runSetter s w =
  (Ok tt,
   with_redis
     (Some (mkRedis (<[setterKey s := (setterWire s, None)]> (store c))
              (fails c) (S (issued c)))) w).
Proof.
  intros H Hc Hok. rewrite runSetter_shape. unfold tryCatch. backend w.
  unfold redis_set, command. now rewrite Hc, Hok.
Qed.

Lemma runSetter_rejected s w c :
  redisInUse w = true -> redis w = Some c -> fails c (issued c) = true ->
  runSetter s w =
  (Ok tt,
   with_memory (Map_set (setterKey s) (setterValue s) (inMemoryStorage w))
     (with_redis (Some (mkRedis (store c) (fails c) (S (issued c)))) w)).
Proof.
  intros H Hc Hko. rewrite runSetter_shape. unfold tryCatch. backend w.
  unfold redis_set, command. now rewrite Hc, Hko.
Qed.

Lemma redisInUse_client w :
  redisInUse w = true -> exists c, redis w = Some c.
Proof.
  unfold redisInUse. destruct (redis w) as [c|]; [eauto|].
  rewrite andb_false_r. discriminate.
Qed.

(** C7 (as amended). A setter written with [try]/[catch] ([setPriceAlert],
    [setUserPortfolio], [setWebhook]) never loses the write: for every
    backend outcome it returns normally, leaves the availability flag as it
    was, and the entry is then held by the remote backend or by the fallback
    store; when the backend is marked available and the remote write fails,
    the entry is written to the fallback store. *)
Theorem setter_never_loses_write (s : Setter) (w : World) :
  (exists w',
     runSetter s w = (Ok tt, w') /\
     isRedisAvailable w' = isRedisAvailable w /\
     (heldRemotely s w' \/ heldLocally s w')) /\
  (forall c, redisInUse w = true -> redis w = Some c ->
     fails c (issued c) = true ->
     exists w',
       runSetter s w = (Ok tt, w') /\
       isRedisAvailable w' = isRedisAvailable w /\
       heldLocally s w').
Proof.
  assert (Hrej : forall c, redisInUse w = true -> redis w = Some c ->
            fails c (issued c) = true ->
            exists w', runSetter s w = (Ok tt, w') /\
              isRedisAvailable w' = isRedisAvailable w /\ heldLocally s w').
  { intros c H Hc Hko. rewrite (runSetter_rejected s w c) by assumption.
    eexists. split; [reflexivity|]. split; [reflexivity|].
    unfold heldLocally. simpl. apply Map_get_set. }
  split; [|exact Hrej].
  destruct (redisInUse w) eqn:H.
  - destruct (redisInUse_client w H) as [c Hc].
    destruct (fails c (issued c)) eqn:Hf.
    + destruct (Hrej c eq_refl Hc Hf) as (w' & Hrun & Hflag & Hheld). eauto 6.
    + rewrite (runSetter_remote s w c) by assumption.
      eexists. split; [reflexivity|]. split; [reflexivity|]. left.
      eexists. split; [reflexivity|]. simpl. apply lookup_insert_eq.
  - rewrite runSetter_fallback by assumption.
    eexists. split; [reflexivity|]. split; [reflexivity|]. right.
    unfold heldLocally. simpl. apply Map_get_set.
Qed.

Lemma setter_never_loses_write_witness :
  exists w',
    runSetter (SetAlert (IdNum 42) "DOT" 5.0 true) throwing = (Ok tt, w') /\
    isRedisAvailable w' = isRedisAvailable throwing /\
    heldLocally (SetAlert (IdNum 42) "DOT" 5.0 true) w'.
Proof.
  apply (proj2 (setter_never_loses_write
                  (SetAlert (IdNum 42) "DOT" 5.0 true) throwing)
           (mkRedis ∅ (fun _ => true) 0)); reflexivity.
Defined.

(** C7, counterexample to the claim as stated.  The backend is marked
    available and rejects every command.  [setPriceAlert] falls back to the
    in-memory store but leaves the backend marked available;
    [setCacheWithExpiry] throws, and its entry is in neither backend. *)
Lemma set_failure_counterexample :
  (exists w',
     setPriceAlert (IdNum 42) "DOT" 5.0 true throwing = (Ok tt, w') /\
     isRedisAvailable w' = true) /\
  (exists w',
     setCacheWithExpiry "price:DOT" (Text "{}") 300 throwing
       = (Throw RedisError, w') /\
     isRedisAvailable w' = true /\
     Map_get "price:DOT" (inMemoryStorage w') = None /\
     (forall c, redis w' = Some c -> store c !! "price:DOT" = None)).
Proof.
  split; eexists; (split; [reflexivity|]).
  - reflexivity.
  - split; [reflexivity|]. split; [reflexivity|].
    intros c Hc. injection Hc as <-. reflexivity.
Qed.

(** ** Fallback transparency *)

Lemma scanMemory_fromEntries userId (m : list (string * JsValue)) :
  scanMemory userId m =
  Object_fromEntries
    (map (fun e => (symbolOfKey (fst e), snd e))
       (List.filter (fun e => startsWith (fst e) (alertPrefix userId)) m)).
Proof.
  unfold scanMemory, Object_fromEntries. generalize (@nil (string * JsValue)).
  induction m as [|e m IH]; intros acc; simpl; [reflexivity|].
  destruct (startsWith (fst e) (alertPrefix userId)); simpl; apply IH.
Qed.

Lemma getUserPortfolio_fallback userId w :
  redisInUse w = false ->
  getUserPortfolio userId w =
  (Ok (orEmpty (Map_get (getKey "portfolio" userId None) (inMemoryStorage w))), w).
Proof.
  intros H. unfold getUserPortfolio, tryCatch. backend w. reflexivity.
Qed.

Lemma getWebhook_fallback userId w :
  redisInUse w = false ->
  getWebhook userId w =
  (Ok (orNull (Map_get (getKey "webhook" userId None) (inMemoryStorage w))), w).
Proof.
  intros H. unfold getWebhook, tryCatch. backend w. reflexivity.
Qed.

(** A rejected command inside [try] hands over to the [catch] block. *)
Lemma command_rejected {A} (run : Z -> gmap string (JsString * option Z) ->
    Result A * gmap string (JsString * option Z)) w c :
  redis w = Some c -> fails c (issued c) = true ->
  command run w =
  (Throw RedisError,
   with_redis (Some (mkRedis (store c) (fails c) (S (issued c)))) w).
Proof. intros Hc Hko. unfold command. now rewrite Hc, Hko. Qed.

Lemma getPriceAlerts_rejected userId w c :
  redisInUse w = true -> redis w = Some c -> fails c (issued c) = true ->
  getPriceAlerts userId w =
  (Ok (scanMemory userId (inMemoryStorage w)),
   with_redis (Some (mkRedis (store c) (fails c) (S (issued c)))) w).
Proof.
  intros H Hc Hko. unfold getPriceAlerts, tryCatch. backend w.
  unfold bind at 1, redis_keys. rewrite (command_rejected _ w c) by assumption.
  simpl. now rewrite scanMemory_fromEntries.
Qed.

Lemma getUserPortfolio_rejected userId w c :
  redisInUse w = true -> redis w = Some c -> fails c (issued c) = true ->
  getUserPortfolio userId w =
  (Ok (orEmpty (Map_get (getKey "portfolio" userId None) (inMemoryStorage w))),
   with_redis (Some (mkRedis (store c) (fails c) (S (issued c)))) w).
Proof.
  intros H Hc Hko. unfold getUserPortfolio, tryCatch. backend w.
  unfold bind at 1, redis_get. now rewrite (command_rejected _ w c).
Qed.

Lemma getWebhook_rejected userId w c :
  redisInUse w = true -> redis w = Some c -> fails c (issued c) = true ->
  getWebhook userId w =
  (Ok (orNull (Map_get (getKey "webhook" userId None) (inMemoryStorage w))),
   with_redis (Some (mkRedis (store c) (fails c) (S (issued c)))) w).
Proof.
  intros H Hc Hko. unfold getWebhook, tryCatch. backend w.
  unfold bind at 1, redis_get. now rewrite (command_rejected _ w c).
Qed.

Lemma fallbackOnly_off w : redisInUse (fallbackOnly w) = false.
Proof. unfold redisInUse. simpl. apply andb_false_r. Qed.

Lemma runOp_fallback_transparent op w :
  redisInUse w = false ->
  runOp op (fallbackOnly w) =
  (fst (runOp op w), fallbackOnly (snd (runOp op w))).
Proof.
  pose proof (fallbackOnly_off w) as Hfb. intros Hoff.
  destruct op; unfold runOp, bind.
  - rewrite !runSetter_fallback by assumption; reflexivity.
  - rewrite !getPriceAlerts_fallback by assumption; reflexivity.
  - rewrite !getUserPortfolio_fallback by assumption; reflexivity.
  - rewrite !getWebhook_fallback by assumption; reflexivity.
  - rewrite !setCacheWithExpiry_fallback by assumption; reflexivity.
  - rewrite !getCache_fallback by assumption; reflexivity.
Qed.

(** One operation: with the backend marked unavailable, or with a guarded
    operation on a backend rejecting every command, the caller gets what
    the fallback-only system gives, and the two systems stay in step. *)
Lemma runOp_transparent op w :
  redisInUse w = false \/ (alwaysRejects w /\ guarded op = true) ->
  runOp op (fallbackOnly w) =
  (fst (runOp op w), fallbackOnly (snd (runOp op w))).
Proof.
  intros [Hoff | [Hrej Hg]]; [now apply runOp_fallback_transparent|].
  destruct (redisInUse w) eqn:Hon; [|now apply runOp_fallback_transparent].
  pose proof (fallbackOnly_off w) as Hfb.
  destruct (redisInUse_client w Hon) as [c Hc].
  pose proof (Hrej c Hc (issued c)) as Hko.
  destruct op; try discriminate Hg; unfold runOp, bind.
  - rewrite runSetter_fallback by assumption.
    now rewrite (runSetter_rejected s w c).
  - rewrite getPriceAlerts_fallback by assumption.
    now rewrite (getPriceAlerts_rejected userId w c).
  - rewrite getUserPortfolio_fallback by assumption.
    now rewrite (getUserPortfolio_rejected userId w c).
  - rewrite getWebhook_fallback by assumption.
    now rewrite (getWebhook_rejected userId w c).
Qed.

Lemma runOp_stays_off op w :
  redisInUse w = false -> redisInUse (snd (runOp op w)) = false.
Proof.
  intros Hoff. destruct op; unfold runOp, bind.
  - now rewrite runSetter_fallback.
  - now rewrite getPriceAlerts_fallback.
  - now rewrite getUserPortfolio_fallback.
  - now rewrite getWebhook_fallback.
  - now rewrite setCacheWithExpiry_fallback.
  - now rewrite getCache_fallback.
Qed.

Lemma runOp_stays_rejecting op w :
  alwaysRejects w -> guarded op = true -> alwaysRejects (snd (runOp op w)).
Proof.
  intros Hrej Hg. destruct (redisInUse w) eqn:Hon.
  - destruct (redisInUse_client w Hon) as [c Hc].
    pose proof (Hrej c Hc) as Hko.
    assert (Hnext : alwaysRejects
              (with_redis (Some (mkRedis (store c) (fails c) (S (issued c)))) w)).
    { intros c' Hc'. simpl in Hc'. injection Hc' as <-. exact Hko. }
    destruct op; try discriminate Hg; unfold runOp, bind.
    + rewrite (runSetter_rejected s w c) by auto. exact Hnext.
    + rewrite (getPriceAlerts_rejected userId w c) by auto. exact Hnext.
    + rewrite (getUserPortfolio_rejected userId w c) by auto. exact Hnext.
    + rewrite (getWebhook_rejected userId w c) by auto. exact Hnext.
  - destruct op; try discriminate Hg; unfold runOp, bind.
    + rewrite runSetter_fallback by assumption. exact Hrej.
    + rewrite getPriceAlerts_fallback by assumption. exact Hrej.
    + rewrite getUserPortfolio_fallback by assumption. exact Hrej.
    + rewrite getWebhook_fallback by assumption. exact Hrej.
Qed.

(** P1 where it holds: a sequence of operations run with the backend marked
    unavailable, or a sequence of guarded operations run against a backend
    that rejects every command, is observed exactly as on the fallback-only
    system. *)
Lemma observe_transparent (ops : list Op) :
  forall w,
    redisInUse w = false \/ (alwaysRejects w /\ forallb guarded ops = true) ->
    observe ops w = observe ops (fallbackOnly w).
Proof.
  induction ops as [|op ops IH]; intros w Hdown; [reflexivity|].
  simpl. rewrite (runOp_transparent op w).
  - simpl. f_equal. apply IH. destruct Hdown as [Hoff | [Hrej Hg]].
    + left. now apply runOp_stays_off.
    + simpl in Hg. apply andb_prop in Hg as [Hop Hops]. right. split.
      * now apply runOp_stays_rejecting.
      * assumption.
  - destruct Hdown as [Hoff | [Hrej Hg]]; [now left|].
    simpl in Hg. apply andb_prop in Hg as [Hop _]. now right.
Qed.

(** Scenario C: the remote cache throws on every call; the portfolio
    written is the portfolio read. *)
Lemma portfolio_roundtrip_when_remote_throws userId portfolio w :
  alwaysRejects w ->
  observe [OSet (SetPortfolio userId portfolio); OGetPortfolio userId] w =
  [Ok RUnit; Ok (RValue (VObj (OPortfolio portfolio)))].
Proof.
  intros Hrej. rewrite observe_transparent by (right; split; [assumption|reflexivity]).
  pose proof (fallbackOnly_off w) as Hfb.
  unfold observe, runOp, bind.
  rewrite runSetter_fallback by assumption. cbn [fst snd ret].
  rewrite getUserPortfolio_fallback by exact Hfb.
  cbn [fst snd ret setterKey setterValue inMemoryStorage with_memory].
  now rewrite Map_get_set.
Qed.

(** C6, the failing input.  The backend is marked available and rejects
    every command.  [setCacheWithExpiry] and [getCache] have no [catch]:
    both calls throw, whereas the fallback-only system stores the value and
    returns it. *)
Theorem cache_set_get_not_transparent :
  observe [OCacheSet "k" (Text "v") 300; OCacheGet "k"] throwing
    = [Throw RedisError; Throw RedisError] /\
  observe [OCacheSet "k" (Text "v") 300; OCacheGet "k"] (fallbackOnly throwing)
    = [Ok RUnit; Ok (RMaybe (Some (VStr (Text "v"))))] /\
  alwaysRejects throwing.
Proof.
  split; [reflexivity|]. split; [reflexivity|].
  intros c Hc n. injection Hc as <-. reflexivity.
Qed.

(** ** Computations that respect a relation between worlds *)

Section Stable.
Variable R : World -> World -> Prop.
Hypothesis R_refl : forall w, R w w.
Hypothesis R_trans : forall w1 w2 w3, R w1 w2 -> R w2 w3 -> R w1 w3.

Lemma stable_ret {A} (a : A) : stable R (ret a).
Proof using R_refl. intros w. apply R_refl. Qed.

Lemma stable_throw {A} e : stable R (@throw A e).
Proof using R_refl. intros w. apply R_refl. Qed.

Lemma stable_gets {A} (f : World -> A) : stable R (gets f).
Proof using R_refl. intros w. apply R_refl. Qed.

Lemma stable_bind {A B} (m : M A) (k : A -> M B) :
  stable R m -> (forall a, stable R (k a)) -> stable R (bind m k).
Proof using R_trans.
  intros Hm Hk w. unfold bind. specialize (Hm w).
  destruct (m w) as [[a|e] w1]; simpl in *; [|assumption].
  eapply R_trans; [eassumption | apply Hk].
Qed.

Lemma stable_tryCatch {A} (body : M A) (handler : JsError -> M A) :
  stable R body -> (forall e, stable R (handler e)) ->
  stable R (tryCatch body handler).
Proof using R_trans.
  intros Hb Hh w. unfold tryCatch. specialize (Hb w).
  destruct (body w) as [[a|e] w1]; simpl in *; [assumption|].
  eapply R_trans; [eassumption | apply Hh].
Qed.

Lemma stable_if {A} (b : bool) (m1 m2 : M A) :
  stable R m1 -> stable R m2 -> stable R (if b then m1 else m2).
Proof. now destruct b. Qed.

Lemma stable_forEach {A} (l : list A) (body : A -> M unit) :
  (forall x, stable R (body x)) -> stable R (forEach l body).
Proof using R_refl R_trans.
  intros Hbody. induction l as [|x l IH]; simpl.
  - apply stable_ret.
  - apply stable_bind; auto.
Qed.

Lemma stable_JSON_parse s : stable R (JSON_parse s).
Proof using R_refl. destruct s; [apply stable_throw | apply stable_ret]. Qed.

(** The loop over the keys returned by [KEYS], given that [GET] is stable. *)
Lemma stable_collectAlerts keys :
  (forall key, stable R (redis_get key)) ->
  forall alerts, stable R (collectAlerts keys alerts).
Proof using R_refl R_trans.
  intros Hget. induction keys as [|key keys IH]; intros alerts; simpl.
  - apply stable_ret.
  - apply stable_bind; [apply Hget|]. intros [d|]; [|apply IH].
    destruct (truthyStr d); [|apply IH].
    apply stable_bind; [apply stable_JSON_parse | intros o; apply IH].
Qed.
End Stable.

(** ** The alert matcher *)

Lemma alertsUntouched_refl w : alertsUntouched w w.
Proof. split; [reflexivity | intros; split; reflexivity]. Qed.

Lemma alertsUntouched_trans w1 w2 w3 :
  alertsUntouched w1 w2 -> alertsUntouched w2 w3 -> alertsUntouched w1 w3.
Proof.
  intros [He1 Hk1] [He2 Hk2]. split; [congruence|].
  intros key Hkey. destruct (Hk1 key Hkey), (Hk2 key Hkey). split; congruence.
Qed.

(** Walks down a computation built from [bind], [tryCatch], conditionals
    and loops; [leaf] deals with the primitive steps. *)
Ltac frame refl trans leaf :=
  repeat first
    [ assumption
    | solve [leaf]
    | apply stable_ret; exact refl
    | apply stable_throw; exact refl
    | apply stable_gets; exact refl
    | apply stable_JSON_parse; exact refl
    | apply stable_bind; [exact trans | | intros ?]
    | apply stable_tryCatch; [exact trans | | intros ?]
    | apply stable_forEach; [exact refl | exact trans | intros ?]
    | apply stable_collectAlerts; [exact refl | exact trans | intros ?]
    | match goal with
      | |- stable _ (match ?x with _ => _ end) => destruct x
      end ].

Create HintDb quiet.

(** A command is quiet when it leaves the alert keys of the key space. *)
Lemma quiet_command {A}
    (run : Z -> gmap string (JsString * option Z) ->
           Result A * gmap string (JsString * option Z)) :
  (forall t s key, startsWith key "alert:" = true ->
     snd (run t s) !! key = s !! key) ->
  quiet (command run).
Proof.
  intros Hrun w. unfold command.
  destruct (redis w) as [c|] eqn:Hc; [|apply alertsUntouched_refl].
  destruct (fails c (issued c)).
  - split; [reflexivity|]. intros key Hkey. split; [reflexivity|].
    unfold remoteLookup. simpl. now rewrite Hc.
  - specialize (Hrun (now w) (store c)).
    destruct (run (now w) (store c)) as [r s]. split; [reflexivity|].
    intros key Hkey. split; [reflexivity|].
    unfold remoteLookup. simpl. rewrite Hc. now apply Hrun.
Qed.

Lemma quiet_redis_get key : quiet (redis_get key).
Proof. apply quiet_command. reflexivity. Qed.

Lemma quiet_redis_keys pattern : quiet (redis_keys pattern).
Proof. apply quiet_command. reflexivity. Qed.

Lemma quiet_redis_set key value ex :
  startsWith key "alert:" = false -> quiet (redis_set key value ex).
Proof.
  intros Hkey. apply quiet_command. intros t s k Hk.
  assert (key <> k) by congruence.
  destruct ex as [secs|]; [destruct (0 <? secs)|]; simpl;
    try reflexivity; now apply lookup_insert_ne.
Qed.

Lemma quiet_memSet key value :
  startsWith key "alert:" = false -> quiet (memSet key value).
Proof.
  intros Hkey w. split; [reflexivity|]. intros k Hk. split; [|reflexivity].
  simpl. apply Map_get_set_other. congruence.
Qed.

#[local] Hint Resolve quiet_redis_get quiet_redis_keys : quiet.

Lemma quiet_getPriceAlerts userId : quiet (getPriceAlerts userId).
Proof.
  unfold getPriceAlerts, useRedis.
  frame alertsUntouched_refl alertsUntouched_trans ltac:(auto with quiet).
Qed.

Lemma price_key_not_alert symbol : startsWith ("price:" ++ symbol) "alert:" = false.
Proof. reflexivity. Qed.

Lemma quiet_setCacheWithExpiry_price symbol value expirySeconds :
  quiet (setCacheWithExpiry ("price:" ++ symbol) value expirySeconds).
Proof.
  unfold setCacheWithExpiry, useRedis.
  pose proof (price_key_not_alert symbol).
  frame alertsUntouched_refl alertsUntouched_trans
    ltac:(auto using quiet_redis_set, quiet_memSet).
Qed.

(** Entering the loop throws, so its body never runs. *)
Lemma quiet_loop alerts (body : LegacyAlert.t -> M unit) :
  quiet (elements <- iterate alerts ;; forEach elements body).
Proof. intros w. apply alertsUntouched_refl. Qed.

(** Whatever the symbol, the snapshot, the stored alerts and the state of
    the backend, a matching pass returns normally, invokes no callback and
    removes no alert. *)
Lemma handlePriceUpdate_fires_nothing symbol data w :
  fst (handlePriceUpdate symbol data w) = Ok tt /\
  alertsUntouched w (snd (handlePriceUpdate symbol data w)).
Proof.
  split.
  - unfold handlePriceUpdate, tryCatch.
    match goal with |- context [let (_, _) := ?m w in _] =>
      destruct (m w) as [[[]|e] w'] end; reflexivity.
  - revert w. change (quiet (handlePriceUpdate symbol data)).
    unfold handlePriceUpdate.
    apply stable_tryCatch;
      [exact alertsUntouched_trans | | intros e; apply stable_ret, alertsUntouched_refl].
    apply stable_bind;
      [exact alertsUntouched_trans | apply quiet_setCacheWithExpiry_price | intros _].
    apply stable_bind;
      [exact alertsUntouched_trans | apply quiet_getPriceAlerts | intros alerts].
    apply quiet_loop.
Qed.


(** ** The availability flag

    No method of the service writes [isRedisAvailable]: only the connection
    callbacks [onConnect] and [onError] do. *)

Lemma sameFlag_refl w : sameFlag w w.
Proof. reflexivity. Qed.

Lemma sameFlag_trans w1 w2 w3 : sameFlag w1 w2 -> sameFlag w2 w3 -> sameFlag w1 w3.
Proof. unfold sameFlag. congruence. Qed.

Lemma keepsFlag_command {A}
    (run : Z -> gmap string (JsString * option Z) ->
           Result A * gmap string (JsString * option Z)) :
  keepsFlag (command run).
Proof.
  intros w. unfold command, sameFlag.
  destruct (redis w) as [c|]; [|reflexivity].
  destruct (fails c (issued c)); [reflexivity|].
  now destruct (run (now w) (store c)).
Qed.

Lemma keepsFlag_memSet key value : keepsFlag (memSet key value).
Proof. intros w. reflexivity. Qed.

Lemma keepsFlag_memDelete key : keepsFlag (memDelete key).
Proof. intros w. reflexivity. Qed.

Ltac flag_leaf :=
  first [ apply keepsFlag_command | apply keepsFlag_memSet
        | apply keepsFlag_memDelete ].

Lemma methods_keep_flag :
  (forall s, keepsFlag (runSetter s)) /\
  (forall userId, keepsFlag (getPriceAlerts userId)) /\
  (forall userId symbol isAbove,
     keepsFlag (removePriceAlert userId symbol isAbove)) /\
  (forall key value expirySeconds,
     keepsFlag (setCacheWithExpiry key value expirySeconds)) /\
  (forall key, keepsFlag (getCache key)) /\
  (forall key, keepsFlag (deleteCache key)) /\
  (forall userId, keepsFlag (getUserPortfolio userId)) /\
  (forall userId, keepsFlag (getWebhook userId)) /\
  (forall userId, keepsFlag (removeWebhook userId)) /\
  (forall userId, keepsFlag (clearUserAlerts userId)).
Proof.
  repeat split; intros;
    try rewrite runSetter_shape;
    unfold getPriceAlerts, removePriceAlert, setCacheWithExpiry, getCache,
      deleteCache, getUserPortfolio, getWebhook, removeWebhook,
      clearUserAlerts, clearMemoryAlerts, useRedis,
      redis_get, redis_set, redis_del, redis_keys;
    frame sameFlag_refl sameFlag_trans flag_leaf.
Qed.

(** The loop body, were it reached on the fallback store with an element
    whose condition is met: every callback subscribed for the symbol is
    called with the observed price, then the alert of that user and symbol
    is deleted.  Both comparisons are inclusive. *)
Lemma conditionMet_inclusive isAbove target userId data :
  conditionMet (toTyped (LegacyAlert.mk isAbove target userId)) data =
  if isAbove then PrimFloat.leb target (PriceData.price data)
  else PrimFloat.leb (PriceData.price data) target.
Proof. now destruct isAbove. Qed.

Lemma forEach_emit (f : nat -> Event) (l : list nat) w :
  forEach l (fun cb => emit (f cb)) w =
  (Ok tt, with_events (events w ++ map f l) w).
Proof.
  revert w. induction l as [|cb l IH]; intros w; simpl.
  - rewrite app_nil_r. now destruct w.
  - unfold bind, emit, modify. rewrite IH. simpl.
    now rewrite <- app_assoc.
Qed.

Lemma alertBody_fires symbol data alert w :
  redisInUse w = false ->
  conditionMet (toTyped alert) data = true ->
  exists w',
    alertBody symbol data alert w = (Ok tt, w') /\
    events w' =
      (events w ++
       map (fun cb => EvCallback cb symbol (PriceData.price data))
         (match Map_get symbol (priceUpdateCallbacks w) with
          | Some l => l
          | None => []
          end))%list /\
    Map_get (getKey "alert" (LegacyAlert.userId alert) (Some symbol))
      (inMemoryStorage w') = None.
Proof.
  intros Hoff Hmet. unfold alertBody. rewrite Hmet.
  unfold bind at 1, invokeCallbacks. unfold bind at 1, gets.
  rewrite forEach_emit.
  rewrite removePriceAlert_fallback by exact Hoff.
  eexists. split; [reflexivity|]. split; [reflexivity|].
  simpl. apply Map_get_delete.
Qed.

(** C1, the failing input (Scenario A).  User 42 holds the only alert on
    DOT, under [alert:42:DOT].  The matcher's lookup is
    [getPriceAlerts(symbol)], with the symbol where a user id is expected:
    it looks for keys starting with [alert:DOT] and finds none. *)
Theorem matcher_lookup_misses_alerts :
  alertsForSymbol "DOT" (inMemoryStorage scenarioA)
    = [("alert:42:DOT", VObj (OAlert (AlertData.mk "DOT" 5.0 true)))] /\
  getPriceAlerts (IdStr "DOT") scenarioA = (Ok [], scenarioA) /\
  (* the same on a connected backend *)
  remoteLookup scenarioA_remote "alert:42:DOT"
    = Some (Json (OAlert (AlertData.mk "DOT" 5.0 true)), None) /\
  fst (getPriceAlerts (IdStr "DOT") scenarioA_remote) = Ok [].
Proof. repeat split; reflexivity. Qed.



(** Scenario A.  Two successive ticks observe DOT at 5.0 and at 5.1, both
    qualifying for "DOT above 5.0": callback 7 is never invoked and the
    alert is still in the registry afterwards. *)
Lemma qualifying_ticks_deliver_nothing :
  conditionMet (PriceAlert.mk above 5.0 (IdNum 42)) (quote 5.0) = true /\
  conditionMet (PriceAlert.mk above 5.0 (IdNum 42)) (quote 5.1) = true /\
  exists w',
    (pollTick [("DOT", quote 5.0)] ;; pollTick [("DOT", quote 5.1)]) scenarioA
      = (Ok tt, w') /\
    Map_get "DOT" (priceUpdateCallbacks w') = Some [7%nat] /\
    events w' = [] /\
    Map_get "alert:42:DOT" (inMemoryStorage w')
      = Some (VObj (OAlert (AlertData.mk "DOT" 5.0 true))).
Proof.
  split; [reflexivity|]. split; [reflexivity|].
  eexists. repeat split; reflexivity.
Qed.

(** C3, the failing input.  An ABOVE alert at 100 is met by 100 and by
    100.01, a BELOW alert at 100 by 100 and by 99.99, yet in none of the
    four matching passes is callback 7 invoked. *)
Theorem threshold_alert_does_not_fire :
  (conditionMet (PriceAlert.mk above 100 (IdNum 42)) (quote 100) = true /\
   events (snd (handlePriceUpdate "DOT" (quote 100) (boundary true))) = []) /\
  (conditionMet (PriceAlert.mk above 100 (IdNum 42)) (quote 100.01) = true /\
   events (snd (handlePriceUpdate "DOT" (quote 100.01) (boundary true))) = []) /\
  (conditionMet (PriceAlert.mk below 100 (IdNum 42)) (quote 100) = true /\
   events (snd (handlePriceUpdate "DOT" (quote 100) (boundary false))) = []) /\
  (conditionMet (PriceAlert.mk below 100 (IdNum 42)) (quote 99.99) = true /\
   events (snd (handlePriceUpdate "DOT" (quote 99.99) (boundary false))) = []).
Proof. repeat split; reflexivity. Qed.

(** C10, counterexample to the claim as stated: users 12 and 1 both hold
    an alert on DOT, user 1's being the later entry.  [getPriceAlerts(1)]
    has a single slot for DOT, filled last by user 1's own alert: the alert
    of user 12 is matched by the prefix but is not in the result. *)
Lemma getPriceAlerts_same_symbol_counterexample :
  Map_get "alert:12:DOT" (inMemoryStorage sameSymbol)
    = Some (VObj (OAlert (AlertData.mk "DOT" 6.0 false))) /\
  exists alerts,
    getPriceAlerts (IdNum 1) sameSymbol = (Ok alerts, sameSymbol) /\
    alerts = [("DOT", VObj (OAlert (AlertData.mk "DOT" 5.0 true)))] /\
    ~ In (VObj (OAlert (AlertData.mk "DOT" 6.0 false))) (map snd alerts).
Proof.
  split; [reflexivity|]. eexists. split; [reflexivity|]. split; [reflexivity|].
  simpl. intros [H|[]]. discriminate H.
Qed.

(** * Further properties *)

(** ** Deliveries from any attempt number *)

Lemma sendWithRetry_outcome url payload :
  forall attempt w,
  exists b w',
    sendWithRetry url payload attempt w = (Ok b, w') /\
    http w' = http w /\
    redis w' = redis w /\
    inMemoryStorage w' = inMemoryStorage w /\
    (requests w < requests w')%nat /\
    (requests w' <= requests w + Nat.max 1 (MAX_RETRIES + 1 - attempt))%nat /\
    succeeds (http w (requests w' - 1)) = b /\
    forall j, (requests w <= j < requests w' - 1)%nat ->
      succeeds (http w j) = false.
Proof.
  intros attempt. remember (MAX_RETRIES - attempt)%nat as fuel eqn:Hfuel.
  revert attempt Hfuel.
  induction fuel as [|fuel IH]; intros attempt Hfuel w;
    destruct (succeeds (http w (requests w))) eqn:Hs.
  - rewrite attempt_success by assumption.
    do 2 eexists. split; [reflexivity|]. simpl.
    rewrite ?Nat.sub_0_r.
    repeat (split; [first [reflexivity | lia | assumption]|]).
    intros j Hj. lia.
  - rewrite attempt_last by (assumption || lia).
    do 2 eexists. split; [reflexivity|]. simpl.
    rewrite ?Nat.sub_0_r.
    repeat (split; [first [reflexivity | lia | assumption]|]).
    intros j Hj. lia.
  - rewrite attempt_success by assumption.
    do 2 eexists. split; [reflexivity|]. simpl.
    rewrite ?Nat.sub_0_r.
    repeat (split; [first [reflexivity | lia | assumption]|]).
    intros j Hj. lia.
  - rewrite attempt_retry by (assumption || lia).
    destruct (IH (attempt + 1)%nat ltac:(lia)
                (slept (RETRY_DELAY * Z.of_nat attempt) (posted url w)))
      as (b & w' & Hrun & Hhttp & Hredis & Hmem & Hlt & Hle & Hlast & Hbefore).
    simpl in Hhttp, Hredis, Hmem, Hlt, Hle, Hlast, Hbefore.
    exists b, w'. split; [exact Hrun|].
    unfold MAX_RETRIES in *.
    repeat (split; [first [assumption | lia]|]).
    intros j Hj. destruct (Nat.eq_dec j (requests w)) as [->|Hne];
      [assumption | apply Hbefore; lia].
Qed.

(** X1. Started at any attempt number, [sendWithRetry] never throws; it
    makes at least one request and at most [max 1 (4 - attempt)]; every
    request but the last was refused and the result tells whether the last
    one got a 2xx answer; neither backend of the cache is touched. *)
Theorem sendWithRetry_any_attempt
    (url : JsValue) (payload : Payload.t) (attempt : nat) (w : World) :
  exists b w',
    sendWithRetry url payload attempt w = (Ok b, w') /\
    redis w' = redis w /\
    inMemoryStorage w' = inMemoryStorage w /\
    (requests w < requests w')%nat /\
    (requests w' <= requests w + Nat.max 1 (MAX_RETRIES + 1 - attempt))%nat /\
    succeeds (http w (requests w' - 1)) = b /\
    forall j, (requests w <= j < requests w' - 1)%nat ->
      succeeds (http w j) = false.
Proof.
  destruct (sendWithRetry_outcome url payload attempt w)
    as (b & w' & Hrun & _ & H).
  exists b, w'. split; assumption.
Qed.

(** ** No method of the cache makes an HTTP request *)

Lemma sameTraffic_refl w : sameTraffic w w.
Proof. repeat split. Qed.

Lemma sameTraffic_trans w1 w2 w3 :
  sameTraffic w1 w2 -> sameTraffic w2 w3 -> sameTraffic w1 w3.
Proof. unfold sameTraffic. intros (? & ? & ? & ?) (? & ? & ? & ?). repeat split; congruence. Qed.

Lemma sameTraffic_command {A}
    (run : Z -> gmap string (JsString * option Z) ->
           Result A * gmap string (JsString * option Z)) :
  stable sameTraffic (command run).
Proof.
  intros w. unfold command.
  destruct (redis w) as [c|]; [|apply sameTraffic_refl].
  destruct (fails c (issued c)); [repeat split|].
  destruct (run (now w) (store c)). repeat split.
Qed.

Lemma sameTraffic_getWebhook userId : stable sameTraffic (getWebhook userId).
Proof.
  unfold getWebhook, useRedis, redis_get, memGet.
  frame sameTraffic_refl sameTraffic_trans ltac:(apply sameTraffic_command).
Qed.

(** X2. [sendNotification] never throws, whatever the backend and the web
    server do; it makes at most three requests, and when it returns [true]
    it has made one and the last request got a 2xx answer. *)
Theorem sendNotification_outcome
    (userId : UserId) (event : string) (data : Record_) (w : World) :
  exists b w',
    sendNotification userId event data w = (Ok b, w') /\
    (requests w <= requests w' <= requests w + MAX_RETRIES)%nat /\
    (b = true ->
     (requests w < requests w')%nat /\
     succeeds (http w (requests w' - 1)) = true).
Proof.
  unfold sendNotification, tryCatch. unfold bind at 1.
  pose proof (sameTraffic_getWebhook userId w) as (Hreq & Hhttp & _ & _).
  destruct (getWebhook userId w) as [[v|e] w1]; simpl in Hreq, Hhttp.
  - destruct (orNull v) as [url|].
    + unfold bind, gets.
      destruct (sendWithRetry_outcome url (Payload.mk event (now w1) data) 1 w1)
        as (b & w' & Hrun & _ & _ & _ & Hlt & Hle & Hlast & _).
      rewrite Hrun. exists b, w'. split; [reflexivity|].
      rewrite Hreq, Hhttp in *. unfold MAX_RETRIES in *. simpl in Hle.
      split; [lia|]. intros ->. split; [lia | assumption].
    + exists false, w1. split; [reflexivity|]. split; [lia | discriminate].
  - exists false, w1. split; [reflexivity|]. split; [lia | discriminate].
Qed.

(** X3. [testWebhook] never throws and never reports "Webhook test
    failed": its [catch] block cannot be reached.  It makes between one and
    three requests; [success] tells whether the last one got a 2xx answer,
    and the message is the fixed text that goes with it. *)
Theorem testWebhook_outcome (url : string) (w : World) :
  exists b w',
    testWebhook url w =
      (Ok (TestResult.mk b
             (Literal (if b then "Webhook test successful"
                       else "Failed to deliver test webhook"))), w') /\
    (requests w < requests w' <= requests w + MAX_RETRIES)%nat /\
    succeeds (http w (requests w' - 1)) = b.
Proof.
  unfold testWebhook, tryCatch, bind, gets.
  destruct (sendWithRetry_outcome (VStr (Text url))
              (Payload.mk "test" (now w)
                 [("message", VStr (Text "This is a test notification from SentinelTrade"))])
              1 w)
    as (b & w' & Hrun & _ & _ & _ & Hlt & Hle & Hlast & _).
  rewrite Hrun. exists b, w'. split; [reflexivity|].
  unfold MAX_RETRIES in *. simpl in Hle. split; [lia | assumption].
Qed.

(** ** Reading changes nothing *)

Lemma sameStores_refl w : sameStores w w.
Proof. repeat split. Qed.

Lemma sameStores_trans w1 w2 w3 :
  sameStores w1 w2 -> sameStores w2 w3 -> sameStores w1 w3.
Proof.
  unfold sameStores. intros (? & ? & ? & ?) (? & ? & ? & ?).
  repeat split; congruence.
Qed.

(** A command that leaves the key space as it finds it. *)
Lemma sameStores_command {A}
    (run : Z -> gmap string (JsString * option Z) ->
           Result A * gmap string (JsString * option Z)) :
  (forall t s, snd (run t s) = s) ->
  stable sameStores (command run).
Proof.
  intros Hrun w. unfold command.
  destruct (redis w) as [c|] eqn:Hc; [|apply sameStores_refl].
  destruct (fails c (issued c)).
  - repeat split. simpl. now rewrite Hc.
  - specialize (Hrun (now w) (store c)).
    destruct (run (now w) (store c)) as [r s]. simpl in Hrun. subst s.
    repeat split. simpl. now rewrite Hc.
Qed.

Ltac reader_leaf :=
  apply sameStores_command; intros; reflexivity.

(** A [try] whose [catch] block returns normally returns normally. *)
Lemma tryCatch_returns {A} (body : M A) (handler : JsError -> M A) w :
  (forall e w1, exists a, fst (handler e w1) = Ok a) ->
  exists a, fst (tryCatch body handler w) = Ok a.
Proof.
  intros Hh. unfold tryCatch. destruct (body w) as [[a|e] w1]; [simpl; eauto|].
  apply Hh.
Qed.

(** X4. The getters leave both backends as they were: after
    [getPriceAlerts], [getUserPortfolio], [getWebhook] or [getCache],
    however they end, the fallback store, the remote key space, the flag
    and the clock are unchanged.  The three getters written with
    [try]/[catch] moreover return normally in every state of the backend. *)
Theorem getters_change_nothing :
  (forall userId, stable sameStores (getPriceAlerts userId)) /\
  (forall userId, stable sameStores (getUserPortfolio userId)) /\
  (forall userId, stable sameStores (getWebhook userId)) /\
  (forall key, stable sameStores (getCache key)) /\
  (forall userId w, exists r, fst (getPriceAlerts userId w) = Ok r) /\
  (forall userId w, exists r, fst (getUserPortfolio userId w) = Ok r) /\
  (forall userId w, exists r, fst (getWebhook userId w) = Ok r).
Proof.
  assert (Hreads : forall key, stable sameStores (redis_get key))
    by (intros; unfold redis_get; reader_leaf).
  split; [|split; [|split; [|split; [|split; [|split]]]]]; intros.
  - unfold getPriceAlerts, useRedis, redis_keys.
    frame sameStores_refl sameStores_trans reader_leaf.
  - unfold getUserPortfolio, useRedis, memGet.
    frame sameStores_refl sameStores_trans ltac:(apply Hreads).
  - unfold getWebhook, useRedis, memGet.
    frame sameStores_refl sameStores_trans ltac:(apply Hreads).
  - unfold getCache, useRedis, memGet.
    frame sameStores_refl sameStores_trans ltac:(apply Hreads).
  - apply tryCatch_returns. intros e w1. simpl. eauto.
  - apply tryCatch_returns. intros e w1. simpl. eauto.
  - apply tryCatch_returns. intros e w1. simpl. eauto.
Qed.

(** ** Methods without a [catch] *)

(** X5. The methods written without [try]/[catch] pass a rejected command
    on to their caller: when the backend is in use and rejects the command,
    [setCacheWithExpiry], [getCache], [deleteCache], [removePriceAlert],
    [removeWebhook] and [disconnect] throw, and neither backend's content
    has changed (nothing is written to, read from or deleted from the
    fallback store). *)
Theorem unguarded_methods_propagate (w : World) (c : RedisClient) :
  redisInUse w = true -> redis w = Some c -> fails c (issued c) = true ->
  let w' := with_redis (Some (mkRedis (store c) (fails c) (S (issued c)))) w in
  (forall key value expirySeconds,
     setCacheWithExpiry key value expirySeconds w = (Throw RedisError, w')) /\
  (forall key, getCache key w = (Throw RedisError, w')) /\
  (forall key, deleteCache key w = (Throw RedisError, w')) /\
  (forall userId symbol isAbove,
     removePriceAlert userId symbol isAbove w = (Throw RedisError, w')) /\
  (forall userId, removeWebhook userId w = (Throw RedisError, w')) /\
  disconnect w = (Throw RedisError, w') /\
  sameStores w w'.
Proof.
  intros Hon Hc Hko w'.
  repeat split; intros;
    try (unfold setCacheWithExpiry, getCache, deleteCache, removePriceAlert,
           removeWebhook, disconnect;
         backend w;
         unfold bind, redis_set, redis_get, redis_del, redis_quit;
         now rewrite (command_rejected _ w c)).
  simpl. now rewrite Hc.
Qed.

Lemma unguarded_methods_propagate_witness :
  removeWebhook (IdNum 7) throwing
    = (Throw RedisError,
       with_redis (Some (mkRedis ∅ (fun _ => true) 1)) throwing).
Proof.
  apply (unguarded_methods_propagate throwing (mkRedis ∅ (fun _ => true) 0)
           eq_refl eq_refl eq_refl).
Defined.

(** ** Writing, then reading *)

Lemma runOp_set_fallback s w :
  redisInUse w = false ->
  runOp (OSet s) w =
  (Ok RUnit,
   with_memory (Map_set (setterKey s) (setterValue s) (inMemoryStorage w)) w).
Proof. intros H. unfold runOp, bind. now rewrite runSetter_fallback. Qed.

Lemma storedUrl_orNull url : orNull (Some (VStr (Text url))) = storedUrl url.
Proof. unfold storedUrl. now destruct url. Qed.

(** On the fallback-only system a portfolio or a URL that was written is
    read back. *)
Lemma roundtrip_fallback userId portfolio url w :
  redisInUse w = false ->
  observe [OSet (SetPortfolio userId portfolio); OGetPortfolio userId] w
    = [Ok RUnit; Ok (RValue (VObj (OPortfolio portfolio)))] /\
  observe [OSet (SetWebhook userId url); OGetWebhook userId] w
    = [Ok RUnit; Ok (RMaybe (storedUrl url))].
Proof.
  intros Hoff. unfold observe. rewrite !runOp_set_fallback by assumption.
  cbn [fst snd]. unfold runOp, bind.
  rewrite getUserPortfolio_fallback, getWebhook_fallback by exact Hoff.
  cbn [fst snd ret setterKey setterValue inMemoryStorage with_memory].
  rewrite !Map_get_set. rewrite storedUrl_orNull. split; reflexivity.
Qed.

(** The same when the backend is in use and accepts both commands, for a
    URL, and for a portfolio whose numbers JSON carries as they are (the
    portfolio read is parsed from the text written). *)
Lemma roundtrip_remote userId portfolio url w c :
  redisInUse w = true -> redis w = Some c ->
  fails c (issued c) = false -> fails c (S (issued c)) = false ->
  (jsonExactPortfolio portfolio = true ->
   observe [OSet (SetPortfolio userId portfolio); OGetPortfolio userId] w
     = [Ok RUnit; Ok (RValue (VObj (OPortfolio portfolio)))]) /\
  observe [OSet (SetWebhook userId url); OGetWebhook userId] w
    = [Ok RUnit; Ok (RMaybe (Some (VStr (Text url))))].
Proof.
  intros Hon Hc Hok1 Hok2. unfold observe, runOp, bind.
  rewrite !(runSetter_remote _ w c) by assumption. cbn [fst snd ret].
  unfold getUserPortfolio, getWebhook, tryCatch, bind, useRedis, gets,
    redis_get, command.
  assert (Hon' : forall r, redisInUse (with_redis (Some r) w) = true).
  { intros r. unfold redisInUse in *. simpl.
    destruct (isRedisAvailable w); [reflexivity | discriminate]. }
  rewrite !Hon'. cbn [redis with_redis fails issued store setterKey setterWire].
  rewrite Hok2, !lookup_insert_eq. split; [intros _|]; reflexivity.
Qed.

(** X6. Writing then reading through one backend is a round trip.  When
    the backend is not in use, when it rejects every command, or when it
    accepts every command, [getWebhook] after [setWebhook] returns the URL
    written if it is not empty, and [getUserPortfolio] after
    [setUserPortfolio] returns the portfolio written; on the accepting
    backend, where the portfolio travels as JSON text, this is for a
    portfolio whose numbers are finite and not the negative zero. *)
Theorem set_then_get_roundtrip
    (userId : UserId) (portfolio : Portfolio) (url : string) (w : World) :
  redisInUse w = false \/ alwaysRejects w \/ neverRejects w ->
  (redisInUse w = false \/ alwaysRejects w \/
   jsonExactPortfolio portfolio = true ->
   observe [OSet (SetPortfolio userId portfolio); OGetPortfolio userId] w
     = [Ok RUnit; Ok (RValue (VObj (OPortfolio portfolio)))]) /\
  (url <> "" ->
   observe [OSet (SetWebhook userId url); OGetWebhook userId] w
     = [Ok RUnit; Ok (RMaybe (Some (VStr (Text url))))]).
Proof.
  intros Hregime.
  assert (Hfallback : forall w0, redisInUse w0 = false ->
    observe [OSet (SetPortfolio userId portfolio); OGetPortfolio userId] w0
      = [Ok RUnit; Ok (RValue (VObj (OPortfolio portfolio)))] /\
    (url <> "" ->
     observe [OSet (SetWebhook userId url); OGetWebhook userId] w0
       = [Ok RUnit; Ok (RMaybe (Some (VStr (Text url))))])).
  { intros w0 H0.
    destruct (roundtrip_fallback userId portfolio url w0 H0) as [Hp Hu].
    split; [exact Hp|]. intros Hurl. rewrite Hu. unfold storedUrl.
    destruct (String.eqb_spec url ""); congruence. }
  destruct (redisInUse w) eqn:Hon.
  2: { destruct (Hfallback w Hon) as [Hp Hu]. split; [intros _; exact Hp | exact Hu]. }
  assert (Hrejecting : alwaysRejects w ->
    observe [OSet (SetPortfolio userId portfolio); OGetPortfolio userId] w
      = [Ok RUnit; Ok (RValue (VObj (OPortfolio portfolio)))] /\
    (url <> "" ->
     observe [OSet (SetWebhook userId url); OGetWebhook userId] w
       = [Ok RUnit; Ok (RMaybe (Some (VStr (Text url))))])).
  { intros Hrej.
    rewrite !(observe_transparent _ w) by (right; split; [assumption|reflexivity]).
    apply Hfallback, fallbackOnly_off. }
  destruct (redisInUse_client w Hon) as [c Hc].
  destruct Hregime as [Hoff | [Hrej | Hacc]]; [discriminate| |].
  - destruct (Hrejecting Hrej) as [Hp Hu]. split; [intros _; exact Hp | exact Hu].
  - destruct (roundtrip_remote userId portfolio url w c Hon Hc
                (Hacc c Hc _) (Hacc c Hc _)) as [Hp Hu].
    split; [|intros _; exact Hu].
    intros [Hoff | [Hrej | Hexact]]; [discriminate | | now apply Hp].
    now apply Hrejecting.
Qed.

Lemma set_then_get_roundtrip_witness :
  observe [OSet (SetPortfolio (IdNum 1) [("BTC", 0.5%float)]); OGetPortfolio (IdNum 1)]
    connected
    = [Ok RUnit; Ok (RValue (VObj (OPortfolio [("BTC", 0.5%float)])))] /\
  observe [OSet (SetWebhook (IdNum 1) "https://example.org/hook");
           OGetWebhook (IdNum 1)] connected
    = [Ok RUnit; Ok (RMaybe (Some (VStr (Text "https://example.org/hook"))))].
Proof.
  assert (Hacc : redisInUse connected = false \/ alwaysRejects connected \/
                 neverRejects connected).
  { right. right. intros c Hc n. injection Hc as <-. reflexivity. }
  destruct (set_then_get_roundtrip (IdNum 1) [("BTC", 0.5%float)]
              "https://example.org/hook" connected Hacc) as [Hp Hu].
  split.
  - apply Hp. right. right. reflexivity.
  - apply Hu. discriminate.
Defined.



(** X8. A removal reaches only the backend in use.  A URL stored while the
    backend was not in use stays in the fallback store when [removeWebhook]
    runs against the connected backend, and is returned again by
    [getWebhook] after the next connection error. *)
Theorem removed_webhook_comes_back
    (userId : UserId) (url : string) (w : World) (c : RedisClient) :
  isRedisAvailable w = false -> redis w = Some c ->
  fails c (issued c) = false -> url <> "" ->
  exists w',
    (setWebhook userId url ;; onConnect ;; removeWebhook userId ;;
     onError ;; getWebhook userId) w = (Ok (Some (VStr (Text url))), w').
Proof.
  intros Hflag Hc Hok Hurl.
  assert (Hoff : redisInUse w = false) by (unfold redisInUse; now rewrite Hflag).
  pose proof (runSetter_fallback (SetWebhook userId url) w Hoff) as Hset.
  cbn [runSetter setterKey setterValue] in Hset.
  unfold bind at 1. rewrite Hset.
  unfold bind at 1. unfold onConnect at 1, modify.
  unfold bind at 1. unfold removeWebhook, bind at 1, useRedis, gets, redisInUse.
  cbn [isRedisAvailable redis with_available with_memory]. rewrite Hc.
  cbn [andb]. unfold redis_del, command.
  cbn [redis with_available with_memory]. rewrite Hc, Hok.
  unfold bind at 1. unfold onError at 1, modify.
  rewrite getWebhook_fallback by reflexivity.
  cbn [inMemoryStorage with_available with_redis with_memory].
  rewrite Map_get_set, storedUrl_orNull. unfold storedUrl.
  destruct (String.eqb_spec url ""); [contradiction|]. eauto.
Qed.

Lemma removed_webhook_comes_back_witness :
  exists w',
    (setWebhook (IdNum 7) "https://example.org/hook" ;; onConnect ;;
     removeWebhook (IdNum 7) ;; onError ;; getWebhook (IdNum 7)) notYetConnected
    = (Ok (Some (VStr (Text "https://example.org/hook"))), w').
Proof.
  apply (removed_webhook_comes_back (IdNum 7) "https://example.org/hook"
           notYetConnected (mkRedis ∅ (fun _ => false) 0));
    reflexivity || discriminate.
Defined.

(** ** The key scheme *)

Lemma pretty_N_char_no_colon x : Ascii.eqb (pretty_N_char x) ":" = false.
Proof. unfold pretty_N_char. repeat case_match; reflexivity. Qed.

Lemma pretty_N_go_colonFree x :
  forall s, colonFree s = true -> colonFree (pretty_N_go x s) = true.
Proof.
  induction (N.lt_wf_0 x) as [x _ IH]. intros s Hs.
  destruct (decide (0 < x)%N) as [Hpos|Hzero].
  - rewrite pretty_N_go_step by assumption. apply IH.
    + now apply N.div_lt.
    + simpl. now rewrite pretty_N_char_no_colon.
  - assert (x = 0%N) as -> by lia. now rewrite pretty_N_go_0.
Qed.

Lemma pretty_N_colonFree (x : N) : colonFree (pretty x) = true.
Proof.
  unfold pretty, pretty_N. destruct (decide (x = 0%N)); [reflexivity|].
  now apply pretty_N_go_colonFree.
Qed.

(** The decimal digits of a user id hold no colon. *)
Lemma pretty_Z_colonFree (u : Z) : colonFree (pretty u) = true.
Proof.
  destruct u as [|p|p]; [reflexivity | apply (pretty_N_colonFree (Npos p)) |].
  change (pretty (Zneg p)) with (String "-" (pretty (Npos p))).
  simpl. apply (pretty_N_colonFree (Npos p)).
Qed.

Lemma getKey_tail type userId symbol :
  getKey type userId symbol = type ++ String ":" (idText userId ++ keyTail symbol).
Proof.
  unfold getKey, keyTail, givenSymbol.
  destruct symbol as [s|]; [destruct (String.eqb s "")|]; reflexivity.
Qed.

(** Two strings made of a colon-free head and a tail that is empty or
    starts with a colon are equal only part by part. *)
Lemma colonFree_app_inj a b x y :
  colonFree a = true -> colonFree b = true ->
  (x = "" \/ exists x', x = String ":" x') ->
  (y = "" \/ exists y', y = String ":" y') ->
  a ++ x = b ++ y -> a = b /\ x = y.
Proof.
  revert b. induction a as [|c a IH]; intros [|d b] Ha Hb Hx Hy Heq.
  - auto.
  - change (x = String d (b ++ y)) in Heq. simpl in Hb.
    destruct Hx as [->|[x' ->]]; [discriminate|].
    injection Heq as <- _. discriminate.
  - change (String c (a ++ x) = y) in Heq. simpl in Ha.
    destruct Hy as [->|[y' ->]]; [discriminate|].
    injection Heq as -> _. discriminate.
  - change (String c (a ++ x) = String d (b ++ y)) in Heq.
    injection Heq as -> Heq. simpl in Ha, Hb.
    apply andb_prop in Ha as [_ Ha]. apply andb_prop in Hb as [_ Hb].
    destruct (IH b Ha Hb Hx Hy Heq) as [-> ->]. auto.
Qed.

Lemma keyTail_shape symbol :
  keyTail symbol = "" \/ exists t, keyTail symbol = String ":" t.
Proof. unfold keyTail. destruct (givenSymbol symbol); eauto. Qed.

(** X9. Keys built by [getKey] for numeric user ids never coincide by
    accident: two of them are equal only for the same kind, the same user
    and the same symbol (an empty symbol counting as no symbol). *)
Theorem getKey_injective
    (type1 type2 : string) (u1 u2 : Z) (symbol1 symbol2 : option string) :
  colonFree type1 = true -> colonFree type2 = true ->
  getKey type1 (IdNum u1) symbol1 = getKey type2 (IdNum u2) symbol2 ->
  type1 = type2 /\ u1 = u2 /\ givenSymbol symbol1 = givenSymbol symbol2.
Proof.
  intros H1 H2 Heq. rewrite !getKey_tail in Heq.
  destruct (colonFree_app_inj type1 type2 _ _ H1 H2
              ltac:(eauto) ltac:(eauto) Heq) as [-> Hrest].
  injection Hrest as Hrest. simpl in Hrest.
  destruct (colonFree_app_inj _ _ _ _ (pretty_Z_colonFree u1)
              (pretty_Z_colonFree u2) (keyTail_shape symbol1)
              (keyTail_shape symbol2) Hrest) as [Hu Htail].
  apply (inj pretty) in Hu. repeat split; [assumption|].
  unfold keyTail in Htail.
  destruct (givenSymbol symbol1), (givenSymbol symbol2);
    congruence.
Qed.

Lemma getKey_injective_witness :
  "alert" = "alert" /\ 42 = 42 /\
  givenSymbol (Some "") = givenSymbol None.
Proof.
  apply (getKey_injective "alert" "alert" 42 42 (Some "") None);
    reflexivity.
Defined.

Lemma split_head a r :
  colonFree a = true -> split ":" (a ++ String ":" r) = a :: split ":" r.
Proof.
  induction a as [|c a IH]; intros Ha; [reflexivity|].
  simpl in Ha. apply andb_prop in Ha as [Hc Ha].
  change (split ":" (String c (a ++ String ":" r)) = String c a :: split ":" r).
  simpl. destruct (Ascii.eqb c ":"); [discriminate|]. now rewrite IH.
Qed.

Lemma split_whole a : colonFree a = true -> split ":" a = [a].
Proof.
  induction a as [|c a IH]; intros Ha; [reflexivity|].
  simpl in Ha. apply andb_prop in Ha as [Hc Ha].
  simpl. destruct (Ascii.eqb c ":"); [discriminate|]. now rewrite IH.
Qed.

Lemma append_empty_r (s : string) : s ++ "" = s.
Proof.
  induction s as [|c s IH]; [reflexivity|].
  change (String c (s ++ "") = String c s). now rewrite IH.
Qed.

Lemma split_nonempty sep s : exists h t, split sep s = h :: t.
Proof.
  induction s as [|c s (h & t & IH)]; simpl; [eauto|].
  destruct (Ascii.eqb c sep); [eauto|]. rewrite IH. eauto.
Qed.

(** The symbol [getPriceAlerts] cuts out of a key built by [getKey]. *)
Lemma symbolOfKey_getKey type (u : Z) symbol :
  colonFree type = true ->
  symbolOfKey (getKey type (IdNum u) symbol) =
  match givenSymbol symbol with
  | Some s => hd "" (split ":" s)
  | None => "undefined"
  end.
Proof.
  intros Htype. rewrite getKey_tail. unfold symbolOfKey, keyTail.
  rewrite split_head by assumption. cbn [idText].
  destruct (givenSymbol symbol) as [s|].
  - rewrite split_head by apply pretty_Z_colonFree.
    destruct (split_nonempty ":" s) as (h & t & ->). reflexivity.
  - rewrite append_empty_r, split_whole by apply pretty_Z_colonFree.
    reflexivity.
Qed.

Lemma prefix_refl s : String.prefix s s = true.
Proof.
  induction s as [|c s IH]; [reflexivity|]. simpl.
  destruct (ascii_dec c c); [assumption | congruence].
Qed.

Lemma Map_set_fresh {V} k (v : V) m :
  Map_get k m = None -> Map_set k v m = (m ++ [(k, v)])%list.
Proof.
  induction m as [|[k' v'] m IH]; simpl; [reflexivity|].
  destruct (String.eqb k k'); [discriminate|]. intros H. now rewrite IH.
Qed.

(** X10. On the fallback store, an alert set for a user who had none on
    that symbol is listed by [getPriceAlerts] for that user, under the name
    cut from the key: the symbol up to its first colon, and "undefined" for
    an empty symbol. *)
Theorem new_alert_is_listed
    (u : Z) (symbol : string) (price : float) (isAbove : bool) (w : World) :
  redisInUse w = false ->
  Map_get (getKey "alert" (IdNum u) (Some symbol)) (inMemoryStorage w) = None ->
  exists alerts w',
    (setPriceAlert (IdNum u) symbol price isAbove ;;
     getPriceAlerts (IdNum u)) w = (Ok alerts, w') /\
    Map_get (if String.eqb symbol "" then "undefined"
             else hd "" (split ":" symbol)) alerts
      = Some (VObj (OAlert (AlertData.mk symbol price isAbove))).
Proof.
  intros Hoff Hfresh.
  pose proof (runSetter_fallback (SetAlert (IdNum u) symbol price isAbove) w Hoff)
    as Hset.
  cbn [runSetter setterKey setterValue] in Hset.
  unfold bind. rewrite Hset. rewrite getPriceAlerts_fallback by exact Hoff.
  do 2 eexists. split; [reflexivity|].
  cbn [inMemoryStorage with_memory]. rewrite Map_set_fresh by assumption.
  pose proof (symbolOfKey_getKey "alert" u (Some symbol) eq_refl) as Hname.
  cbn [givenSymbol] in Hname.
  replace (if String.eqb symbol "" then "undefined" else hd "" (split ":" symbol))
    with (symbolOfKey (getKey "alert" (IdNum u) (Some symbol)))
    by (rewrite Hname; now destruct (String.eqb symbol "")).
  apply scanMemory_reports.
  - apply alert_key_overlap, prefix_refl.
  - intros e [].
Qed.

Lemma new_alert_is_listed_witness :
  exists alerts w',
    (setPriceAlert (IdNum 42) "DOT:USD" 5.0 true ;;
     getPriceAlerts (IdNum 42)) offline = (Ok alerts, w') /\
    Map_get "DOT" alerts
      = Some (VObj (OAlert (AlertData.mk "DOT:USD" 5.0 true))).
Proof.
  apply (new_alert_is_listed 42 "DOT:USD" 5.0 true offline); reflexivity.
Defined.

(** ** Clearing, then listing *)

Lemma scanMemory_cleared userId m : scanMemory userId (cleared userId m) = [].
Proof.
  unfold scanMemory, cleared.
  enough (H : forall acc : Record_,
            fold_left
              (fun alerts e =>
                 if startsWith (fst e) (alertPrefix userId)
                 then Map_set (symbolOfKey (fst e)) (snd e) alerts
                 else alerts)
              (List.filter
                 (fun e => negb (startsWith (fst e) (alertPrefix userId))) m)
              acc = acc) by apply H.
  induction m as [|e m IH]; intros acc; simpl; [reflexivity|].
  destruct (startsWith (fst e) (alertPrefix userId)) eqn:Hp; simpl;
    [|rewrite Hp]; apply IH.
Qed.

Lemma matchingKeys_spec pattern t s k :
  In k (matchingKeys pattern t s) <->
  globMatch pattern k = true /\ exists e, s !! k = Some e /\ live t e = true.
Proof.
  unfold matchingKeys. rewrite filter_In, in_map_iff. split.
  - intros [([k' e] & Hk & Hin) Hglob]. simpl in Hk. subst k'.
    apply filter_In in Hin as [Hin Hlive].
    apply list_elem_of_In, elem_of_map_to_list in Hin. eauto.
  - intros [Hglob (e & Hlookup & Hlive)]. split; [|assumption].
    exists (k, e). split; [reflexivity|]. apply filter_In. split; [|assumption].
    now apply list_elem_of_In, elem_of_map_to_list.
Qed.

(** Once the keys matching a pattern are deleted, none matches. *)
Lemma matchingKeys_after_delete pattern t s :
  matchingKeys pattern t
    (fold_right (fun k m => delete k m) s (matchingKeys pattern t s)) = [].
Proof.
  destruct (matchingKeys pattern t (fold_right _ s _)) as [|k rest] eqn:E;
    [reflexivity | exfalso].
  assert (Hin : In k (k :: rest)) by now left.
  rewrite <- E in Hin. apply matchingKeys_spec in Hin as [Hglob (e & Hlookup & Hlive)].
  change (foldr delete s (matchingKeys pattern t s) !! k = Some e) in Hlookup.
  apply lookup_foldr_delete_Some in Hlookup as [Hnot Hlookup].
  apply Hnot, list_elem_of_In, matchingKeys_spec. eauto.
Qed.

(** X11. Clearing then listing gives nothing: on the fallback store, and
    on a backend in use that accepts every command, [getPriceAlerts] right
    after [clearUserAlerts] for the same user returns the empty record. *)
Theorem clear_then_list_is_empty (userId : UserId) (w : World) :
  redisInUse w = false \/ neverRejects w ->
  exists w', (clearUserAlerts userId ;; getPriceAlerts userId) w = (Ok [], w').
Proof.
  intros Hregime. destruct (redisInUse w) eqn:Hon.
  - destruct Hregime as [Hoff|Hacc]; [discriminate|].
    destruct (redisInUse_client w Hon) as [c Hc].
    pose proof (Hacc c Hc) as Hok.
    unfold bind at 1. unfold clearUserAlerts, tryCatch.
    unfold bind at 1. rewrite useRedis_run, Hon.
    unfold bind at 1. unfold bind at 1. unfold redis_keys at 1, command at 1.
    rewrite Hc, Hok. cbv zeta.
    fold (matchingKeys (getKey "alert" userId (Some "*")) (now w) (store c)).
    set (keys := matchingKeys (getKey "alert" userId (Some "*")) (now w) (store c)).
    assert (Hafter : forall w0 n,
      isRedisAvailable w0 = isRedisAvailable w -> now w0 = now w ->
      redis w0 =
        Some (mkRedis (fold_right (fun k s => delete k s) (store c) keys)
                (fails c) n) ->
      exists w', getPriceAlerts userId w0 = (Ok [], w')).
    { intros w0 n Hflag Hnow Hredis.
      assert (Hon0 : redisInUse w0 = true).
      { unfold redisInUse in *. rewrite Hflag, Hredis.
        destruct (isRedisAvailable w); [reflexivity | discriminate]. }
      unfold getPriceAlerts, tryCatch. unfold bind at 1.
      rewrite useRedis_run, Hon0. unfold bind, redis_keys, command.
      rewrite Hredis. cbn [fails issued store]. rewrite Hok, Hnow.
      fold (matchingKeys (getKey "alert" userId (Some "*")) (now w)
              (fold_right (fun k s => delete k s) (store c) keys)).
      unfold keys. rewrite matchingKeys_after_delete. simpl. eauto. }
    destruct (0 <? length keys)%nat eqn:Hlen.
    + unfold redis_del, command. cbn [redis with_redis fails issued store].
      rewrite Hok. rewrite clearMemoryAlerts_run.
      eapply Hafter; reflexivity.
    + assert (Hnil : keys = []).
      { destruct keys; [reflexivity | discriminate]. }
      unfold ret at 1. rewrite clearMemoryAlerts_run.
      eapply Hafter; [reflexivity | reflexivity |].
      rewrite Hnil. reflexivity.
  - unfold bind at 1. unfold clearUserAlerts, tryCatch.
    unfold bind at 1. rewrite useRedis_run, Hon.
    unfold bind at 1. unfold ret at 1. rewrite clearMemoryAlerts_run.
    rewrite getPriceAlerts_fallback by exact Hon.
    cbn [inMemoryStorage with_memory]. rewrite scanMemory_cleared. eauto.
Qed.

Lemma clear_then_list_is_empty_witness :
  exists w',
    (clearUserAlerts (IdNum 42) ;; getPriceAlerts (IdNum 42)) scenarioA_remote
    = (Ok [], w').
Proof.
  apply (clear_then_list_is_empty (IdNum 42) scenarioA_remote).
  right. intros c Hc n. injection Hc as <-. reflexivity.
Defined.

(** ** An entry that is not JSON *)

Lemma cannotBeJson_throws text w :
  cannotBeJson text = true ->
  JSON_parse (Text text) w = (Throw SyntaxError, w).
Proof. reflexivity. Qed.

Lemma collectAlerts_meets_bad_entry (s : gmap string (JsString * option Z))
    (t : Z) (k text : string) (expiry : option Z) :
  s !! k = Some (Text text, expiry) ->
  live t (Text text, expiry) = true ->
  text <> "" ->
  cannotBeJson text = true ->
  forall keys alerts w0,
    In k keys ->
    now w0 = t ->
    (exists c0, redis w0 = Some c0 /\ store c0 = s) ->
    exists e w',
      collectAlerts keys alerts w0 = (Throw e, w') /\
      inMemoryStorage w' = inMemoryStorage w0.
Proof.
  intros Hk Hlive Htext Hbad.
  induction keys as [|key keys IH]; intros alerts w0 Hin Hnow (c0 & Hc0 & Hs);
    [contradiction|].
  simpl. unfold bind at 1. unfold redis_get, command. rewrite Hc0.
  destruct (fails c0 (issued c0)); [simpl; eauto|].
  rewrite Hs, Hnow.
  destruct (String.eqb_spec key k) as [->|Hne].
  - rewrite Hk, Hlive. destruct text; [contradiction|].
    cbn [fst truthyStr]. unfold bind.
    rewrite cannotBeJson_throws by exact Hbad. simpl. eauto.
  - destruct Hin as [Heq|Hin]; [contradiction|].
    assert (Hnext : forall alerts',
      exists e w',
        collectAlerts keys alerts'
          (with_redis (Some (mkRedis s (fails c0) (S (issued c0)))) w0)
        = (Throw e, w') /\ inMemoryStorage w' = inMemoryStorage w0).
    { intros alerts'.
      destruct (IH alerts'
                  (with_redis (Some (mkRedis s (fails c0) (S (issued c0)))) w0)
                  Hin Hnow ltac:(eexists; split; reflexivity))
        as (e & w' & Hrun & Hmem).
      exists e, w'. split; [exact Hrun | exact Hmem]. }
    destruct (s !! key) as [entry|]; [|apply Hnext].
    destruct (live t entry); [|apply Hnext].
    destruct (truthyStr (fst entry)); [|apply Hnext].
    unfold bind. destruct (fst entry); simpl; [eauto | apply Hnext].
Qed.

(** X12. One entry that is not JSON discards the whole remote listing:
    when the backend is in use and holds, under a key matching the pattern
    of a numeric user id, a live non-empty text that cannot be JSON (its
    first character begins no JSON value), [getPriceAlerts] returns what
    its [catch] block builds from the fallback store, whatever else the
    backend holds and whichever commands it accepts. *)
Theorem bad_entry_discards_remote_listing
    (userId : Z) (w : World) (c : RedisClient)
    (k text : string) (expiry : option Z) :
  redisInUse w = true -> redis w = Some c ->
  store c !! k = Some (Text text, expiry) ->
  live (now w) (Text text, expiry) = true ->
  text <> "" ->
  cannotBeJson text = true ->
  globMatch (getKey "alert" (IdNum userId) (Some "*")) k = true ->
  fst (getPriceAlerts (IdNum userId) w)
  = Ok (fallbackListing (IdNum userId) (inMemoryStorage w)).
Proof.
  intros Hon Hc Hk Hlive Htext Hbad Hglob. unfold fallbackListing.
  rewrite <- scanMemory_fromEntries.
  destruct (fails c (issued c)) eqn:Hf.
  - now rewrite (getPriceAlerts_rejected (IdNum userId) w c).
  - unfold getPriceAlerts, tryCatch. unfold bind at 1. rewrite useRedis_run, Hon.
    unfold bind at 1. unfold redis_keys, command. rewrite Hc, Hf. cbv zeta.
    fold (matchingKeys (getKey "alert" (IdNum userId) (Some "*")) (now w) (store c)).
    destruct (collectAlerts_meets_bad_entry (store c) (now w) k text expiry
                Hk Hlive Htext Hbad
                (matchingKeys (getKey "alert" (IdNum userId) (Some "*"))
                   (now w) (store c))
                []
                (with_redis (Some (mkRedis (store c) (fails c) (S (issued c)))) w))
      as (e & w' & Hrun & Hmem).
    + apply matchingKeys_spec. eauto.
    + reflexivity.
    + eexists. split; reflexivity.
    + rewrite Hrun. unfold bind, gets. simpl. rewrite Hmem. simpl.
      now rewrite scanMemory_fromEntries.
Qed.

Lemma bad_entry_discards_remote_listing_witness :
  fst (getPriceAlerts (IdNum 42) corrupted)
    = Ok (fallbackListing (IdNum 42) (inMemoryStorage corrupted)).
Proof.
  apply (bad_entry_discards_remote_listing 42 corrupted
           (mkRedis (<["alert:42:DOT" := (Text "corrupted entry", None)]> ∅)
              (fun _ => false) 0)
           "alert:42:DOT" "corrupted entry" None);
    reflexivity || discriminate.
Defined.

(** ** The price cache *)

Lemma sameStores_getPriceAlerts userId : stable sameStores (getPriceAlerts userId).
Proof.
  unfold getPriceAlerts, useRedis, redis_keys.
  frame sameStores_refl sameStores_trans reader_leaf.
Qed.

(** The world a matching pass ends in: the one left by its lookup, or by
    the cache write if that one throws. *)
Lemma handlePriceUpdate_world symbol data w :
  snd (handlePriceUpdate symbol data w) =
  match setCacheWithExpiry ("price:" ++ symbol) (Json (OPrice data)) 300 w with
  | (Ok _, w0) => snd (getPriceAlerts (IdStr symbol) w0)
  | (Throw _, w0) => w0
  end.
Proof.
  unfold handlePriceUpdate, tryCatch. unfold bind at 1.
  destruct (setCacheWithExpiry _ _ _ w) as [[[]|e] w0]; [|reflexivity].
  unfold bind at 1.
  destruct (getPriceAlerts (IdStr symbol) w0) as [[alerts|e] w1]; reflexivity.
Qed.

Lemma handlePriceUpdate_fallback symbol data w :
  redisInUse w = false ->
  handlePriceUpdate symbol data w =
  (Ok tt,
   with_memory
     (Map_set ("price:" ++ symbol) (VStr (Json (OPrice data))) (inMemoryStorage w))
     w).
Proof.
  intros Hoff.
  pose proof (handlePriceUpdate_fires_nothing symbol data w) as [Hfst _].
  pose proof (handlePriceUpdate_world symbol data w) as Hsnd.
  rewrite setCacheWithExpiry_fallback in Hsnd by assumption.
  rewrite getPriceAlerts_fallback in Hsnd by exact Hoff. simpl in Hsnd.
  destruct (handlePriceUpdate symbol data w) as [r w']. simpl in *.
  now subst.
Qed.

(** X13. The snapshot text cached by a matching pass is what the cache
    serves under [price:{symbol}].  On a backend in use that accepts every
    command it is served for 300 seconds and is gone from then on; on the
    fallback store it is served whatever time has passed. *)
Theorem price_snapshot_cache
    (symbol : string) (data : PriceData.t) (elapsed : Z) (w : World) :
  0 <= elapsed ->
  (redisInUse w = true -> neverRejects w ->
   fst ((handlePriceUpdate symbol data ;; elapse elapsed ;;
         getCache ("price:" ++ symbol)) w)
   = Ok (if elapsed <? 300000 then Some (VStr (Json (OPrice data))) else None)) /\
  (redisInUse w = false ->
   fst ((handlePriceUpdate symbol data ;; elapse elapsed ;;
         getCache ("price:" ++ symbol)) w)
   = Ok (Some (VStr (Json (OPrice data))))).
Proof.
  intros _. split.
  - intros Hon Hacc. destruct (redisInUse_client w Hon) as [c Hc].
    unfold bind at 1.
    pose proof (handlePriceUpdate_fires_nothing symbol data w) as [Hfst _].
    pose proof (handlePriceUpdate_world symbol data w) as Hsnd.
    unfold setCacheWithExpiry in Hsnd. unfold bind at 1 in Hsnd.
    rewrite useRedis_run, Hon in Hsnd. unfold redis_set, command in Hsnd.
    rewrite Hc, (Hacc c Hc) in Hsnd. cbn [Z.ltb Z.compare] in Hsnd.
    match type of Hsnd with
    | _ = snd (getPriceAlerts _ ?w0) =>
        pose proof (sameStores_getPriceAlerts (IdStr symbol) w0)
          as (_ & Hflag & Hnow & Hredis)
    end.
    rewrite <- Hsnd in Hflag, Hnow, Hredis. clear Hsnd.
    destruct (handlePriceUpdate symbol data w) as [r w1].
    simpl in Hfst, Hflag, Hnow, Hredis. subst r.
    destruct (redis w1) as [c1|] eqn:Hc1; [|discriminate].
    simpl in Hredis. injection Hredis as Hstore Hfails.
    cbv beta iota. unfold bind at 1. unfold elapse, modify.
    assert (Hon1 : redisInUse (with_now (now w1 + elapsed) w1) = true).
    { unfold redisInUse in *. simpl. rewrite Hflag, Hc1.
      destruct (isRedisAvailable w); [reflexivity | discriminate]. }
    unfold getCache. unfold bind at 1. rewrite useRedis_run, Hon1.
    unfold bind, redis_get, command. cbn [redis with_now now].
    rewrite Hc1, Hfails, (Hacc c Hc), Hstore, lookup_insert_eq.
    unfold live. cbn [fst snd]. rewrite Hnow.
    replace (now w + elapsed <? now w + 1000 * 300)
      with (elapsed <? 300000)
      by (destruct (Z.ltb_spec elapsed 300000),
                   (Z.ltb_spec (now w + elapsed) (now w + 1000 * 300)); lia).
    destruct (elapsed <? 300000); reflexivity.
  - intros Hoff. unfold bind at 1.
    rewrite handlePriceUpdate_fallback by assumption.
    unfold bind at 1. unfold elapse, modify.
    rewrite getCache_fallback by exact Hoff.
    cbn [fst inMemoryStorage with_now with_memory]. now rewrite Map_get_set.
Qed.

Lemma price_snapshot_cache_witness :
  fst ((handlePriceUpdate "DOT" (quote 5.0) ;; elapse 299000 ;;
        getCache "price:DOT") connected)
    = Ok (Some (VStr (Json (OPrice (quote 5.0))))) /\
  fst ((handlePriceUpdate "DOT" (quote 5.0) ;; elapse 300000 ;;
        getCache "price:DOT") connected)
    = Ok None /\
  fst ((handlePriceUpdate "DOT" (quote 5.0) ;; elapse 300000 ;;
        getCache "price:DOT") offline)
    = Ok (Some (VStr (Json (OPrice (quote 5.0))))).
Proof.
  assert (Hacc : neverRejects connected).
  { intros c Hc n. injection Hc as <-. reflexivity. }
  split; [|split].
  - apply (proj1 (price_snapshot_cache "DOT" (quote 5.0) 299000 connected
                    ltac:(lia)) eq_refl Hacc).
  - apply (proj1 (price_snapshot_cache "DOT" (quote 5.0) 300000 connected
                    ltac:(lia)) eq_refl Hacc).
  - apply (proj2 (price_snapshot_cache "DOT" (quote 5.0) 300000 offline
                    ltac:(lia)) eq_refl).
Defined.

(** ** Invariants of the services *)

(** X16. Where the fallback is transparent.  A sequence of [set]/[get]
    operations issued while the backend is not in use gives its caller,
    call by call, what the same sequence gives on a service that has no
    Redis client at all.  So does a sequence of operations written with
    [try]/[catch] issued against a backend that rejects every command,
    provided no alert involved bears the name [__proto__] (the listing is
    then built by [Object.fromEntries] on one side and by assignments on
    the other, which differ on that name only). *)
Theorem fallback_transparency (ops : list Op) (w : World) :
  redisInUse w = false \/
  (alwaysRejects w /\ forallb guarded ops = true /\ protoFree ops w = true) ->
  observe ops w = observe ops (fallbackOnly w).
Proof.
  intros [Hoff | (Hrej & Hguarded & _)]; apply observe_transparent; auto.
Qed.

Lemma fallback_transparency_witness :
  observe [OSet (SetAlert (IdNum 42) "DOT" 5.0 true);
           OSet (SetWebhook (IdNum 42) "https://example.org/hook");
           OGetWebhook (IdNum 42); OGetAlerts (IdNum 42)] throwing
  = observe [OSet (SetAlert (IdNum 42) "DOT" 5.0 true);
             OSet (SetWebhook (IdNum 42) "https://example.org/hook");
             OGetWebhook (IdNum 42); OGetAlerts (IdNum 42)]
      (fallbackOnly throwing).
Proof.
  apply (fallback_transparency _ throwing). right. split; [|split].
  - intros c Hc n. injection Hc as <-. reflexivity.
  - reflexivity.
  - reflexivity.
Defined.

(** X17. No method of the Redis service writes [isRedisAvailable]: the
    setters, the getters, the removers, the cache methods,
    [clearUserAlerts] and [disconnect] all end, normally or by throwing,
    with the flag they started with.  Only the client's [connect] and
    [error] events move it: a command that fails does not make the service
    fall back, and a service that fell back does not resume by itself. *)
Theorem flag_moves_only_on_connection_events :
  (forall s, keepsFlag (runSetter s)) /\
  (forall userId, keepsFlag (getPriceAlerts userId)) /\
  (forall userId symbol isAbove,
     keepsFlag (removePriceAlert userId symbol isAbove)) /\
  (forall key value expirySeconds,
     keepsFlag (setCacheWithExpiry key value expirySeconds)) /\
  (forall key, keepsFlag (getCache key)) /\
  (forall key, keepsFlag (deleteCache key)) /\
  (forall userId, keepsFlag (getUserPortfolio userId)) /\
  (forall userId, keepsFlag (getWebhook userId)) /\
  (forall userId, keepsFlag (removeWebhook userId)) /\
  (forall userId, keepsFlag (clearUserAlerts userId)) /\
  keepsFlag disconnect.
Proof.
  pose proof methods_keep_flag as H.
  repeat (split; [apply H|]). 
  unfold disconnect, useRedis, redis_quit.
  frame sameFlag_refl sameFlag_trans flag_leaf.
Qed.

